(** * export_model.py: export a YOLO model and move it into place

    A shallow embedding of [ball-tracking/scripts/export_model.py].  The
    function [export_model] is ten lines of calls into the Python
    library and the ultralytics framework.  The embedding keeps these
    calls one by one, in the order of the source, over

    - a file tree ([node]: regular files with a size, directories,
      symbolic links),
    - pathlib paths ([Path]: a flag for absolute paths and the list of
      names),
    - a state and exception monad [M] over a [world]: the file system
      and the trace of the calls made so far,
    - the framework ([YOLO], [Model.export]) as parameters: any state
      transformer of the file system that returns or raises.

    Scope of the file-system model.  Names are opaque: a path has no
    [.] or [..] component and a name holds no separator.  A symbolic
    link is followed where it is the last component of a path ([stat],
    [exists], [is_dir], [is_file]); a lookup does not pass through a
    link in the middle of a path.  There is one volume, one process,
    and no permissions.  The theorems about lookups are stated for the
    runs inside this scope ([plain_run]): a model name without
    separator, an [output_dir] without [..], no symbolic link on the
    way to it or to the export, and tame links at their end. *)

From stdpp Require Import gmap strings list fin_maps pretty.

Set Warnings "-register-all".
Local Open Scope N_scope.

(** ** Paths *)

(** [pathlib.Path]: [Path("a/b")] has [parts = ["a"; "b"]], [Path(".")]
    has no parts, [Path("/a")] is absolute. *)
Record Path := mkPath { absolute : bool; parts : list string }.

#[global] Instance Path_eq_dec : EqDecision Path.
Proof. solve_decision. Defined.

(** [Path(name)] for a plain name: a relative path of one part. *)
Definition Path_of_name (name : string) : Path := mkPath false [name].

(** [p.parent]: drops the last part; a path without parts is its own
    parent. *)
Definition parent (p : Path) : Path := mkPath (absolute p) (removelast (parts p)).

(** [p / name] *)
Definition joinpath (p : Path) (rel : list string) : Path :=
  mkPath (absolute p) (parts p ++ rel).

(** [os.path.basename] of a path: its last part, or the empty name. *)
Definition basename (p : Path) : string := List.last (parts p) "".

Fixpoint join_parts (l : list string) : string :=
  match l with
  | [] => ""
  | [c] => c
  | c :: r => c +:+ "/" +:+ join_parts r
  end.

(** [str(p)] *)
Definition Path_str (p : Path) : string :=
  if absolute p then "/" +:+ join_parts (parts p)
  else match parts p with [] => "." | _ => join_parts (parts p) end.

(** ** The file tree *)

Inductive node :=
| File (size : N)
| Dir (entries : gmap string node)
| Link (target : Path).

(** A location is the list of names from the root. *)
Abbreviation location := (list string).

Record filesystem := mkFs { root : node; cwd : location }.

(** Where the operating system looks for [p]: from the root, or from
    the working directory. *)
Definition locate (fs : filesystem) (p : Path) : location :=
  if absolute p then parts p else cwd fs ++ parts p.

(** The outcome of walking down the names of a location: the entry
    (no errno), ENOENT or ENOTDIR. *)
Inductive lookup_result :=
| Found (n : node)
| NoEnt
| NotDir.

Fixpoint walk_to (n : node) (l : location) : lookup_result :=
  match l with
  | [] => Found n
  | c :: r =>
      match n with
      | Dir m => match m !! c with
                 | Some n' => walk_to n' r
                 | None => NoEnt
                 end
      | _ => NotDir
      end
  end.

Definition find (n : node) (l : location) : option node :=
  match walk_to n l with Found x => Some x | _ => None end.

(** [os.lstat]: the entry itself. *)
Definition lstat (fs : filesystem) (p : Path) : option node :=
  find (root fs) (locate fs p).

(** The kernel gives up after 40 links (ELOOP). *)
Definition MAXSYMLINKS : nat := 40.

(** A link's target is looked up from the root when absolute, from the
    directory that holds the link otherwise. *)
Definition link_target (l : location) (t : Path) : location :=
  if absolute t then parts t else removelast l ++ parts t.

(** The entry a location leads to once the links at its end are
    followed, with the place where it was found. *)
Fixpoint follow (fuel : nat) (r : node) (l : location) : option (location * node) :=
  match find r l with
  | Some (Link t) =>
      match fuel with
      | O => None
      | S fuel' => follow fuel' r (link_target l t)
      end
  | Some n => Some (l, n)
  | None => None
  end.

(** [os.stat]: the entry after following links. *)
Definition stat (fs : filesystem) (p : Path) : option node :=
  snd <$> follow MAXSYMLINKS (root fs) (locate fs p).

(** [Path.exists], [Path.is_dir], [Path.is_file]: [stat] with the
    errors ENOENT, ENOTDIR and ELOOP turned into [False]. *)
Definition exists_ (fs : filesystem) (p : Path) : bool :=
  match stat fs p with Some _ => true | None => false end.

Definition is_dir (fs : filesystem) (p : Path) : bool :=
  match stat fs p with Some (Dir _) => true | _ => false end.

Definition is_file (fs : filesystem) (p : Path) : bool :=
  match stat fs p with Some (File _) => true | _ => false end.

Definition is_link (fs : filesystem) (p : Path) : bool :=
  match lstat fs p with Some (Link _) => true | _ => false end.

(** [p.stat().st_size] of a regular file (or of the file a link leads
    to); used under [if f.is_file()] only. *)
Definition st_size (fs : filesystem) (p : Path) : N :=
  match stat fs p with Some (File s) => s | _ => 0 end.

(** Changing the tree at a location: [f] receives the entry (or
    [None]) and returns the new entry (or [None] to remove it).  The
    root can be replaced but not removed, and nothing changes when the
    way to the location is missing. *)
Fixpoint alter_at (f : option node → option node) (l : location) (n : node) : node :=
  match l with
  | [] => default n (f (Some n))
  | c :: r =>
      match n with
      | Dir m =>
          match r with
          | [] => Dir (partial_alter f c m)
          | _ => Dir (alter (alter_at f r) c m)
          end
      | _ => n
      end
  end.

Definition remove_at (l : location) (n : node) : node := alter_at (λ _, None) l n.
Definition put_at (l : location) (x : node) (n : node) : node := alter_at (λ _, Some x) l n.

(** The entries below a directory, as [rglob("*")] yields them: every
    entry of the directory, and below each entry that is a directory
    itself (not a link to one) its entries, recursively. *)
Fixpoint walk (n : node) : list location :=
  match n with
  | Dir m => map_fold (λ c n' acc, ([c] :: map (cons c) (walk n')) ++ acc) [] m
  | _ => []
  end.

(** ** Exceptions, the world and the monad *)

(** The exceptions of the run.  All but [FrameworkError] and
    [OverflowError] are [OSError] or subclasses of it ([shutil.Error]
    included). *)
Inductive exn :=
| FrameworkError (msg : string)
| FileNotFoundError
| FileExistsError
| NotADirectoryError
| IsADirectoryError
| OSError (msg : string)
| ShutilError (msg : string)
| OverflowError.

#[global] Instance exn_eq_dec : EqDecision exn.
Proof. solve_decision. Defined.

Definition is_OSError (e : exn) : bool :=
  match e with
  | FrameworkError _ | OverflowError => false
  | _ => true
  end.

(** The calls [export_model] makes, as they happen. *)
Inductive event :=
| Printed (line : string)
| Call_YOLO (weights : string)
| Call_export (format : string)
| Call_exists (p : Path)
| Call_rmtree (p : Path)
| Call_mkdir (p : Path)
| Call_move (src dst : Path)
| Call_rglob (p : Path).

#[global] Instance event_eq_dec : EqDecision event.
Proof. solve_decision. Defined.

Record world := mkWorld { fs : filesystem; trace : list event }.

Inductive result (A : Type) :=
| Ok (a : A)
| Raise (e : exn).
Arguments Ok {A} a.
Arguments Raise {A} e.

(** A computation returns or raises, and leaves the world as it was
    at that moment. *)
Definition M (A : Type) : Type := world → result A * world.

Definition ret {A} (a : A) : M A := λ w, (Ok a, w).

Definition bind {A B} (m : M A) (k : A → M B) : M B :=
  λ w, match m w with
       | (Ok a, w') => k a w'
       | (Raise e, w') => (Raise e, w')
       end.

Definition raise {A} (e : exn) : M A := λ w, (Raise e, w).

(** [try: m  except <handles>: h] *)
Definition try_except {A} (m : M A) (handles : exn → bool) (h : exn → M A) : M A :=
  λ w, match m w with
       | (Raise e, w') => if handles e then h e w' else (Raise e, w')
       | r => r
       end.

Declare Scope py_scope.
Delimit Scope py_scope with py.
Notation "x <- m ;; k" := (bind m (λ x, k))
  (at level 100, m at next level, right associativity) : py_scope.
Notation "m ;; k" := (bind m (λ _, k))
  (at level 100, right associativity) : py_scope.
Local Open Scope py_scope.

Definition emit (e : event) : M unit :=
  λ w, (Ok tt, mkWorld (fs w) (trace w ++ [e])).

(** Reading the file system, and an operating-system call that
    changes it or fails. *)
Definition ask {A} (q : filesystem → A) : M A := λ w, (Ok (q (fs w)), w).

Definition syscall (op : filesystem → exn + filesystem) : M unit :=
  λ w, match op (fs w) with
       | inr fs' => (Ok tt, mkWorld fs' (trace w))
       | inl e => (Raise e, w)
       end.

Definition set_root (fs : filesystem) (r : node) : filesystem := mkFs r (cwd fs).

(** [print(line)] *)
Definition print (line : string) : M unit := emit (Printed line).

(** ** Operating-system calls *)

(** Creating an entry where none is: [os.mkdir] (with [x] an empty
    directory) and [os.symlink]. *)
Definition os_create (x : node) (p : Path) (fs : filesystem) : exn + filesystem :=
  let l := locate fs p in
  match walk_to (root fs) l with
  | Found _ => inl FileExistsError
  | NotDir => inl NotADirectoryError
  | NoEnt =>
      match parts p, find (root fs) (removelast l) with
      | _ :: _, Some (Dir _) => inr (set_root fs (put_at l x (root fs)))
      | _, _ => inl FileNotFoundError
      end
  end.

Definition os_mkdir (p : Path) : M unit := syscall (os_create (Dir ∅) p).
Definition os_symlink (target : Path) (p : Path) : M unit := syscall (os_create (Link target) p).

(** [os.unlink] *)
Definition os_unlink (p : Path) : M unit :=
  syscall (λ fs,
    match walk_to (root fs) (locate fs p) with
    | Found (Dir _) => inl IsADirectoryError
    | Found _ => inr (set_root fs (remove_at (locate fs p) (root fs)))
    | NoEnt => inl FileNotFoundError
    | NotDir => inl NotADirectoryError
    end).

(** [os.rename] on one volume. *)
Definition os_rename_fs (src dst : Path) (fs : filesystem) : exn + filesystem :=
  let s := locate fs src in
  let d := locate fs dst in
  let moved n := inr (set_root fs (put_at d n (remove_at s (root fs)))) in
  match find (root fs) s with
  | None => inl FileNotFoundError
  | Some n =>
      match parts src, parts dst, find (root fs) (removelast d) with
      | _ :: _, _ :: _, Some (Dir _) =>
          if decide (s = d) then inr fs
          else if decide (s `prefix_of` d) then inl (OSError "EINVAL")
          else match n, find (root fs) d with
               | _, None => moved n
               | Dir _, Some (Dir m) =>
                   if decide (size m = 0%nat) then moved n else inl (OSError "ENOTEMPTY")
               | Dir _, Some _ => inl NotADirectoryError
               | _, Some (Dir _) => inl IsADirectoryError
               | _, Some _ => moved n
               end
      | [], _, _ | _, [], _ => inl (OSError "EBUSY")
      | _, _, _ => inl FileNotFoundError
      end
  end.

Definition os_rename (src dst : Path) : M unit := syscall (os_rename_fs src dst).

(** ** Library calls *)

(** [Path.exists()] and friends, as calls. *)
Definition Path_exists (p : Path) : M bool := ask (λ fs, exists_ fs p).
Definition Path_is_dir (p : Path) : M bool := ask (λ fs, is_dir fs p).
Definition os_path_islink (p : Path) : M bool := ask (λ fs, is_link fs p).

(** [shutil.rmtree(p)] with its defaults: a missing path, a symbolic
    link and a regular file are errors.  The entries of the directory
    go first, the directory last, and [os.rmdir] refuses [.] and [/]. *)
Definition shutil_rmtree (p : Path) : M unit :=
  n <- ask (λ fs, walk_to (root fs) (locate fs p)) ;;
  match n with
  | NoEnt => raise FileNotFoundError
  | NotDir => raise NotADirectoryError
  | Found (Link _) => raise (OSError "Cannot call rmtree on a symbolic link")
  | Found (File _) => raise NotADirectoryError
  | Found (Dir _) =>
      match parts p with
      | [] =>
          syscall (λ fs, inr (set_root fs (put_at (locate fs p) (Dir ∅) (root fs)))) ;;
          raise (OSError "EINVAL")
      | _ :: _ =>
          syscall (λ fs, inr (set_root fs (remove_at (locate fs p) (root fs))))
      end
  end.

(** [p.mkdir(parents=False, exist_ok=True)]: an [OSError] other than
    a missing parent is let go when [p] is a directory by then. *)
Definition Path_mkdir_exist_ok (p : Path) : M unit :=
  try_except (os_mkdir p)
    (λ e, is_OSError e && negb (bool_decide (e = FileNotFoundError)))
    (λ e, d <- Path_is_dir p ;; if d then ret tt else raise e).

(** [p.mkdir(parents=True, exist_ok=True)], by recursion on the parts of
    [p] from the last one ([rp] holds them in reverse): when [os.mkdir]
    reports a missing parent and [p] has a parent other than itself,
    the parent is made in the same way and [p] is tried once more. *)
Fixpoint mkdir_parents (abs : bool) (rp : list string) : M unit :=
  let p := mkPath abs (rev rp) in
  try_except (os_mkdir p) is_OSError
    (λ e,
       if decide (e = FileNotFoundError) then
         match rp with
         | [] => raise e
         | _ :: rp' => mkdir_parents abs rp' ;; Path_mkdir_exist_ok p
         end
       else
         d <- Path_is_dir p ;; if d then ret tt else raise e).

Definition Path_mkdir (p : Path) : M unit := mkdir_parents (absolute p) (rev (parts p)).

(** [os.makedirs(p)] with [exist_ok=False]: the head of the path is
    made first when it does not exist, then [p] itself. *)
Fixpoint makedirs_rev (abs : bool) (rp : list string) : M unit :=
  let p := mkPath abs (rev rp) in
  match rp with
  | [] => os_mkdir p
  | _ :: rp' =>
      (if abs || bool_decide (rp' ≠ []) then
         ex <- Path_exists (mkPath abs (rev rp')) ;;
         if ex then ret tt
         else try_except (makedirs_rev abs rp')
                (λ e, bool_decide (e = FileExistsError)) (λ _, ret tt)
       else ret tt) ;;
      os_mkdir p
  end.

Definition os_makedirs (p : Path) : M unit := makedirs_rev (absolute p) (rev (parts p)).

(** [shutil.copytree(src, dst, symlinks=True)]: [dst] is made with
    [os.makedirs], then filled with a copy of the tree at [src]. *)
Definition shutil_copytree (src dst : Path) : M unit :=
  os_makedirs dst ;;
  syscall (λ fs,
    match lstat fs src with
    | Some n => inr (set_root fs (put_at (locate fs dst) n (root fs)))
    | None => inl FileNotFoundError
    end).

(** [os.path.samefile] under [try ... except OSError: return False]. *)
Definition samefile (fs : filesystem) (p q : Path) : bool :=
  match follow MAXSYMLINKS (root fs) (locate fs p),
        follow MAXSYMLINKS (root fs) (locate fs q) with
  | Some (l1, _), Some (l2, _) => bool_decide (l1 = l2)
  | _, _ => false
  end.

(** [shutil._destinsrc]: [dst] is [src] or lies below it. *)
Definition destinsrc (fs : filesystem) (src dst : Path) : bool :=
  bool_decide (locate fs src `prefix_of` locate fs dst).

(** The second half of [shutil.move]: [os.rename], and when it is
    refused the copy: a link is made anew, a directory is copied unless
    the destination lies inside it.  For a regular file the copy meets
    what [os.rename] met (no source, no directory to write into, a
    directory in the way), so the error stands. *)
Definition move_to (src dst real_dst : Path) : M unit :=
  try_except (os_rename src real_dst) is_OSError
    (λ e,
       l <- ask (λ fs, lstat fs src) ;;
       match l with
       | Some (Link t) => os_symlink t real_dst ;; os_unlink src
       | Some (Dir _) =>
           inside <- ask (λ fs, destinsrc fs src dst) ;;
           if inside then raise (ShutilError "Cannot move a directory into itself")
           else shutil_copytree src real_dst ;; shutil_rmtree src
       | _ => raise e
       end).

(** [shutil.move(src, dst)]: into [dst] when [dst] is a directory,
    onto [dst] otherwise. *)
Definition shutil_move (src dst : Path) : M Path :=
  isd <- Path_is_dir dst ;;
  if isd then
    same <- ask (λ fs, samefile fs src dst && negb (is_link fs src)) ;;
    if same then os_rename src dst ;; ret dst
    else
      let real_dst := joinpath dst [basename src] in
      ex <- Path_exists real_dst ;;
      if ex then raise (ShutilError "Destination path already exists")
      else move_to src dst real_dst ;; ret real_dst
  else move_to src dst dst ;; ret dst.

(** [p.rglob("*")]: nothing unless [p] is a directory. *)
Definition rglob (fs : filesystem) (p : Path) : list Path :=
  match stat fs p with
  | Some (Dir m) => map (joinpath p) (walk (Dir m))
  | _ => []
  end.

(** [sum(f.stat().st_size for f in p.rglob("*") if f.is_file())] *)
Definition sum_file_sizes (fs : filesystem) (p : Path) : N :=
  foldr N.add 0 (map (st_size fs) (filter (λ f, is_file fs f) (rglob fs p))).

(** ** Floats, as far as the last line needs them *)

(** Rounding [a / b] to an integer, ties to even. *)
Definition round_half_even (a b : N) : N :=
  let q := a / b in
  match (2 * (a mod b)) ?= b with
  | Lt => q
  | Gt => q + 1
  | Eq => if N.even q then q else q + 1
  end.

(** The binary64 number nearest to the integer [n]. *)
Definition nearest_float (n : N) : N :=
  if n <? 2 ^ 53 then n
  else let e := N.log2 n - 52 in round_half_even n (2 ^ e) * 2 ^ e.

(** [f"{n / 1024 / 1024:.1f}"]: the quotient of two integers is rounded
    once, to the nearest float (and is an error from [2^1024] on),
    dividing a float by 1024 is exact, and the format rounds the exact
    value to one decimal, ties to even.  [None] stands for the
    [OverflowError]. *)
Definition format_megabytes (n : N) : option string :=
  let x := nearest_float n in
  if 2 ^ 1034 <=? x then None
  else let tenths := round_half_even (x * 10) (2 ^ 20) in
       Some (pretty (tenths / 10) +:+ "." +:+ pretty (tenths mod 10)).

(** ** The program *)

Section Exporter.

(** The framework: [YOLO(weights)] loads a model or raises;
    [model.export(format=...)] writes what it writes or raises. *)
Context {Model : Type}.
Variable YOLO : string → filesystem → (exn + Model) * filesystem.
Variable Model_export : Model → string → filesystem → (exn + unit) * filesystem.

Definition external {A} (call : filesystem → (exn + A) * filesystem) : M A :=
  λ w, match call (fs w) with
       | (inr a, fs') => (Ok a, mkWorld fs' (trace w))
       | (inl e, fs') => (Raise e, mkWorld fs' (trace w))
       end.

(** [export_model(model_name, output_dir)], line by line. *)
Definition export_model (model_name : string) (output_dir : Path) : M unit :=
  print ("Loading " +:+ model_name +:+ "...") ;;
  emit (Call_YOLO (model_name +:+ ".pt")) ;;
  model <- external (YOLO (model_name +:+ ".pt")) ;;

  print "Exporting to TensorFlow.js format..." ;;
  emit (Call_export "tfjs") ;;
  external (Model_export model "tfjs") ;;

  let export_dir := Path_of_name (model_name +:+ "_web_model") in
  emit (Call_exists output_dir) ;;
  ex <- Path_exists output_dir ;;
  (if ex then emit (Call_rmtree output_dir) ;; shutil_rmtree output_dir
   else ret tt) ;;
  emit (Call_mkdir (parent output_dir)) ;;
  Path_mkdir (parent output_dir) ;;
  emit (Call_move export_dir output_dir) ;;
  shutil_move export_dir output_dir ;;

  emit (Call_rglob output_dir) ;;
  total_size <- ask (λ fs, sum_file_sizes fs output_dir) ;;
  print ("Model exported to " +:+ Path_str output_dir) ;;
  match format_megabytes total_size with
  | Some mb => print ("Total size: " +:+ mb +:+ " MB")
  | None => raise OverflowError
  end.

End Exporter.

(** The size of a file tree, for induction on trees. *)
Fixpoint weight (n : node) : nat :=
  match n with
  | Dir m => S (map_fold (λ _ n' acc, weight n' + acc)%nat 0%nat m)
  | _ => 1%nat
  end.

(** * Vocabulary of the statements and proofs *)

(** Two locations that part ways. *)
Definition apart (l1 l2 : location) : Prop :=
  ¬ l1 `prefix_of` l2 ∧ ¬ l2 `prefix_of` l1.

(** [m] reads and writes the file system only. *)
Definition runs_on_fs {A} (m : M A) : Prop :=
  ∃ f : filesystem → result A * filesystem,
    ∀ w, m w = ((f (fs w)).1, mkWorld (f (fs w)).2 (trace w)).

(** Nothing has changed but at the locations on the way to [l]. *)
Definition unchanged_off (l : location) (fs0 fs1 : filesystem) : Prop :=
  cwd fs1 = cwd fs0 ∧
  ∀ x, ¬ x `prefix_of` l → find (root fs1) x = find (root fs0) x.

(** An entry without entries of its own: an empty directory, a link,
    a regular file. *)
Definition childless (x : node) : Prop := ∀ c r, find x (c :: r) = None.

(** The size [export_model] adds for the entry at a location: that of
    the regular file found there after following links. *)
Definition size_at (r : node) (l : location) : N :=
  match follow MAXSYMLINKS r l with
  | Some (_, File s) => s
  | _ => 0
  end.

(** The bytes counted for an entry and, for a directory, for all that
    lies below it: a regular file counts with its size, a symbolic
    link with the size of the regular file it leads to, if any. *)
Fixpoint counted (r : node) (here : location) (n : node) : N :=
  match n with
  | File s => s
  | Link _ => size_at r here
  | Dir m => map_fold (λ c n' acc, counted r (here ++ [c]) n' + acc) 0 m
  end.

(** The bytes of the regular files proper. *)
Fixpoint regular_bytes (n : node) : N :=
  match n with
  | File s => s
  | Link _ => 0
  | Dir m => map_fold (λ _ n' acc, regular_bytes n' + acc) 0 m
  end.

Fixpoint link_free (n : node) : bool :=
  match n with
  | File _ => true
  | Link _ => false
  | Dir m => map_fold (λ _ n' acc, link_free n' && acc) true m
  end.

Definition total (f : location → N) (l : list location) : N :=
  foldr N.add 0 (map f l).

(** What [sum_file_sizes] computes, told by the tree: the bytes counted
    below [p] when [p] is a directory, and nothing otherwise. *)
Definition counted_under (fs0 : filesystem) (p : Path) : N :=
  match lstat fs0 p with
  | Some (Dir m) => counted (root fs0) (locate fs0 p) (Dir m)
  | _ => 0
  end.

(** Every directory of [fs0] is a directory of [fs1]. *)
Definition keeps_dirs (fs0 fs1 : filesystem) : Prop :=
  ∀ x d, find (root fs0) x = Some (Dir d) → ∃ d', find (root fs1) x = Some (Dir d').

(** Whatever [m] does to the file system is within [R]. *)
Definition within (R : filesystem → filesystem → Prop) {A} (m : M A) : Prop :=
  ∀ w r w', m w = (r, w') → R (fs w) (fs w').

Definition logged (e : event) (w : world) : world :=
  mkWorld (fs w) (trace w ++ [e]).

(** The calls of a run that goes through, in their order; [removed]
    tells whether [output_dir] existed. *)
Definition calls (model_name : string) (output_dir : Path) (removed : bool)
    : list event :=
  [ Printed ("Loading " +:+ model_name +:+ "...");
    Call_YOLO (model_name +:+ ".pt");
    Printed "Exporting to TensorFlow.js format...";
    Call_export "tfjs";
    Call_exists output_dir ] ++
  (if removed then [Call_rmtree output_dir] else []) ++
  [ Call_mkdir (parent output_dir);
    Call_move (Path_of_name (model_name +:+ "_web_model")) output_dir;
    Call_rglob output_dir ].

Definition script (model_name : string) (output_dir : Path) (removed : bool)
    (mb : string) : list event :=
  calls model_name output_dir removed ++
  [ Printed ("Model exported to " +:+ Path_str output_dir);
    Printed ("Total size: " +:+ mb +:+ " MB") ].

(** The head of [os.makedirs]: the part before the last [os.mkdir]. *)
Definition makedirs_head (abs : bool) (rp' : list string) : M unit :=
  if abs || bool_decide (rp' ≠ []) then
    ex <- Path_exists (mkPath abs (rev rp')) ;;
    if ex then ret tt
    else try_except (makedirs_rev abs rp')
           (λ e, bool_decide (e = FileExistsError)) (λ _, ret tt)
  else ret tt.

(** The only file the framework is asked for. *)
Definition only_at {Model : Type} (weights : string)
    (load : string → filesystem → (exn + Model) * filesystem)
    : string → filesystem → (exn + Model) * filesystem :=
  λ s fs0, if decide (s = weights) then load s fs0
           else (inl (FrameworkError "not asked for"), fs0).

(** A framework for tests: the loader knows every model but
    [not-a-real-model]; the exporter writes the tree [produced] under
    the name [name] in the working directory. *)
Definition stub_YOLO (weights : string) (fs0 : filesystem)
    : (exn + unit) * filesystem :=
  if decide (weights = "not-a-real-model.pt")
  then (inl (FrameworkError "no such model"), fs0)
  else (inr tt, fs0).

Definition stub_export (name : string) (produced : node)
    (_ : unit) (_ : string) (fs0 : filesystem) : (exn + unit) * filesystem :=
  (inr tt, set_root fs0 (put_at (cwd fs0 ++ [name]) produced (root fs0))).

(** The project: the script runs in [/proj/scripts]; the model of the
    last export lies in [/proj/resources/public/model]. *)
Definition project : filesystem :=
  mkFs (Dir {[ "proj" := Dir {[
          "scripts" := Dir {[ "export_model.py" := File 1400 ]};
          "resources" := Dir {[ "public" := Dir {[ "model" := Dir {[
             "old.bin" := File 999 ]} ]} ]} ]} ]})
       ["proj"; "scripts"].

(** The same project before the first export. *)
Definition fresh_project : filesystem :=
  mkFs (Dir {[ "proj" := Dir {[
          "scripts" := Dir {[ "export_model.py" := File 1400 ]} ]} ]})
       ["proj"; "scripts"].

Definition public_model : Path := mkPath true ["proj"; "resources"; "public"; "model"].
Definition out_model : Path := mkPath false ["out"; "model"].

(** Two files, 150 bytes. *)
Definition two_files : node :=
  Dir {[ "model.json" := File 50; "group1-shard1of1.bin" := File 100 ]}.



Definition start (fs0 : filesystem) : world := mkWorld fs0 [].

Definition stub_run (name : string) (produced : node) (model_name : string)
    (output_dir : Path) (fs0 : filesystem) : result unit * world :=
  export_model stub_YOLO (stub_export name produced) model_name output_dir (start fs0).

(** What a change at [c :: r] does to the entry [c] of a directory. *)
Definition on_entry (f : option node → option node) (r : location)
    : option node → option node :=
  match r with
  | [] => f
  | _ => fmap (alter_at f r)
  end.

(** The calls of a run up to the framework's export, in their order. *)
Definition framework_calls (model_name : string) : list event :=
  [ Printed ("Loading " +:+ model_name +:+ "...");
    Call_YOLO (model_name +:+ ".pt");
    Printed "Exporting to TensorFlow.js format...";
    Call_export "tfjs" ].

(** [export_model] from its line 19 on: what is done once the framework
    has exported. *)
Definition move_into_place (model_name : string) (output_dir : Path) : M unit :=
  let export_dir := Path_of_name (model_name +:+ "_web_model") in
  emit (Call_exists output_dir) ;;
  ex <- Path_exists output_dir ;;
  (if ex then emit (Call_rmtree output_dir) ;; shutil_rmtree output_dir
   else ret tt) ;;
  emit (Call_mkdir (parent output_dir)) ;;
  Path_mkdir (parent output_dir) ;;
  emit (Call_move export_dir output_dir) ;;
  shutil_move export_dir output_dir ;;
  emit (Call_rglob output_dir) ;;
  total_size <- ask (λ fs, sum_file_sizes fs output_dir) ;;
  print ("Model exported to " +:+ Path_str output_dir) ;;
  match format_megabytes total_size with
  | Some mb => print ("Total size: " +:+ mb +:+ " MB")
  | None => raise OverflowError
  end.

(** The error of [shutil.rmtree] on an entry that is no directory. *)
Definition rmtree_refusal (n : option node) : exn :=
  match n with
  | Some (Link _) => OSError "Cannot call rmtree on a symbolic link"
  | _ => NotADirectoryError
  end.

(** From a file system whose working directory is [c], nothing has
    changed at the locations apart from [l1] and from [l2]. *)
Definition same_apart (c : location) (l1 l2 : location)
    (fs0 fs1 : filesystem) : Prop :=
  cwd fs0 = c →
  cwd fs1 = c ∧
  ∀ x, apart x l1 → apart x l2 → find (root fs1) x = find (root fs0) x.

(** [export_model] from its line 23 on: the move and the report. *)
Definition move_and_report (model_name : string) (output_dir : Path) : M unit :=
  let export_dir := Path_of_name (model_name +:+ "_web_model") in
  emit (Call_move export_dir output_dir) ;;
  shutil_move export_dir output_dir ;;
  emit (Call_rglob output_dir) ;;
  total_size <- ask (λ fs, sum_file_sizes fs output_dir) ;;
  print ("Model exported to " +:+ Path_str output_dir) ;;
  match format_megabytes total_size with
  | Some mb => print ("Total size: " +:+ mb +:+ " MB")
  | None => raise OverflowError
  end.

(** The calls between the framework's export and the move. *)
Definition calls_before_move (output_dir : Path) (removed : bool) : list event :=
  Call_exists output_dir ::
  (if removed then [Call_rmtree output_dir] else []) ++
  [Call_mkdir (parent output_dir)].

(** An exporter that fails. *)
Definition failing_export (_ : unit) (_ : string) (fs0 : filesystem)
    : (exn + unit) * filesystem :=
  (inl (FrameworkError "export failed"), fs0).

(** The file system that [stub_export] leaves. *)
Definition after_export (name : string) (produced : node) (fs0 : filesystem)
    : filesystem :=
  (stub_export name produced tt "tfjs" fs0).2.

(** The project with a regular file where the model should go. *)
Definition project_with_file : filesystem :=
  mkFs (Dir {[ "proj" := Dir {[
          "scripts" := Dir {[ "export_model.py" := File 1400 ]};
          "resources" := Dir {[ "public" := Dir {[ "model" := File 7 ]} ]} ]} ]})
       ["proj"; "scripts"].

(** The project with a symbolic link that leads nowhere where the
    model should go. *)
Definition project_with_link : filesystem :=
  mkFs (Dir {[ "proj" := Dir {[
          "scripts" := Dir {[ "export_model.py" := File 1400 ]};
          "resources" := Dir {[ "public" := Dir {[
             "model" := Link (mkPath false ["gone"]) ]} ]} ]} ]})
       ["proj"; "scripts"].

(** The project with a regular file called [resources]. *)
Definition project_blocked : filesystem :=
  mkFs (Dir {[ "proj" := Dir {[
          "scripts" := Dir {[ "export_model.py" := File 1400 ]};
          "resources" := File 3 ]} ]})
       ["proj"; "scripts"].

(** ** The paths and trees that are looked up as the system does *)

Fixpoint has_slash (s : string) : bool :=
  match s with
  | EmptyString => false
  | String a s' => bool_decide (String a EmptyString = "/") || has_slash s'
  end.

(** A name as [pathlib] keeps it among the parts of a path (not empty,
    not [.], without separator) that, moreover, is not [..]. *)
Definition plain_name (c : string) : bool :=
  negb (bool_decide (c = "")) && negb (bool_decide (c = "."))
  && negb (bool_decide (c = "..")) && negb (has_slash c).

Definition plain (p : Path) : bool := forallb plain_name (parts p).

(** Walking down [l] from [n] meets a symbolic link before the end. *)
Fixpoint link_on_way (n : node) (l : location) : bool :=
  match n, l with
  | Link _, _ :: _ => true
  | Dir m, c :: r =>
      match m !! c with
      | Some n' => link_on_way n' r
      | None => false
      end
  | _, _ => false
  end.

(** A symbolic link at [l], if there is one, has a plain target, on
    the way to which lies no further link, and it does not lead to
    another link. *)
Definition tame_link (r : node) (l : location) : bool :=
  match find r l with
  | Some (Link t) =>
      plain t && negb (link_on_way r (link_target l t))
      && match find r (link_target l t) with
         | Some (Link _) => false
         | _ => true
         end
  | _ => true
  end.


(** The runs on which the lookups of this file go the way the
    operating system goes: the model name holds no separator, so that
    [Path(f"{model_name}_web_model")] is one name in the working
    directory; [output_dir] has plain parts; no symbolic link lies on
    the way to either; and where one of them is a link itself, that
    link is tame. *)
Definition plain_run (model_name : string) (output_dir : Path)
    (fs0 : filesystem) : bool :=
  let export_dir := Path_of_name (model_name +:+ "_web_model") in
  negb (has_slash model_name) && plain output_dir
  && negb (link_on_way (root fs0) (locate fs0 output_dir))
  && negb (link_on_way (root fs0) (locate fs0 export_dir))
  && tame_link (root fs0) (locate fs0 output_dir)
  && tame_link (root fs0) (locate fs0 export_dir).



(** * Properties *)

(** ** Induction on file trees *)

Lemma weight_entry (m : gmap string node) c n :
  m !! c = Some n → (weight n < weight (Dir m))%nat.
Proof.
  intros H. cbn [weight].
  induction m as [|i x m Hi Hfirst IH] using map_first_key_ind;
    [by rewrite lookup_empty in H|].
  rewrite map_fold_insert_first_key by done.
  destruct (decide (i = c)) as [->|Hne].
  - rewrite lookup_insert_eq in H. injection H as ->. lia.
  - rewrite lookup_insert_ne in H by done. specialize (IH H). lia.
Qed.

Lemma node_tree_ind (P : node → Prop) :
  (∀ s, P (File s)) →
  (∀ t, P (Link t)) →
  (∀ m, map_Forall (λ _ n, P n) m → P (Dir m)) →
  ∀ n, P n.
Proof.
  intros HF HL HD n.
  remember (weight n) as k eqn:Hk.
  revert n Hk. induction k as [k IH] using lt_wf_ind. intros n ->.
  destruct n as [s|m|t]; [apply HF| |apply HL].
  apply HD. intros c n' Hc. apply (IH (weight n')); [|done].
  by apply weight_entry in Hc.
Qed.

(** ** Looking up and changing the tree *)

Lemma find_nil n : find n [] = Some n.
Proof. done. Qed.

Lemma find_cons n c r :
  find n (c :: r) =
  match n with
  | Dir m => m !! c ≫= λ n', find n' r
  | _ => None
  end.
Proof.
  unfold find. cbn [walk_to].
  destruct n as [|m|]; try done. by destruct (m !! c).
Qed.

Lemma find_app n l r : find n (l ++ r) = find n l ≫= λ x, find x r.
Proof.
  revert n. induction l as [|c l IH]; intros n; [done|].
  rewrite <-app_comm_cons, !find_cons.
  destruct n as [|m|]; try done.
  destruct (m !! c) as [n'|]; [apply IH|done].
Qed.

Lemma find_snoc_dir n l c x :
  find n (l ++ [c]) = Some x → ∃ m, find n l = Some (Dir m) ∧ m !! c = Some x.
Proof.
  rewrite find_app. destruct (find n l) as [y|]; [|done]. cbn.
  rewrite find_cons. destruct y as [|m|]; try done.
  destruct (m !! c) as [z|] eqn:E; [|done]. cbn. intros [= ->]. eauto.
Qed.

Lemma find_prefix_dir n l c r x :
  find n (l ++ c :: r) = Some x → ∃ m, find n l = Some (Dir m).
Proof.
  rewrite find_app. destruct (find n l) as [y|]; [|done]. cbn.
  rewrite find_cons. destruct y; try done. eauto.
Qed.

Lemma find_below_none n l r : find n l = None → find n (l ++ r) = None.
Proof. intros H. by rewrite find_app, H. Qed.

Lemma removelast_snoc {A} (l : list A) c : removelast (l ++ [c]) = l.
Proof. apply removelast_last. Qed.

Lemma snoc_cases {A} (l : list A) : l = [] ∨ ∃ l0 c, l = l0 ++ [c].
Proof.
  destruct l as [|a l] using rev_ind; [by left|right; eauto].
Qed.

Lemma alter_at_cons f c r n :
  r ≠ [] →
  alter_at f (c :: r) n =
  match n with
  | Dir m => Dir (alter (alter_at f r) c m)
  | _ => n
  end.
Proof. intros Hr. cbn [alter_at]. destruct n; try done. by destruct r. Qed.

(** Above the place of the change, an entry becomes the same entry
    changed further down. *)
Lemma find_alter_above f l r n :
  r ≠ [] → find (alter_at f (l ++ r) n) l = alter_at f r <$> find n l.
Proof.
  intros Hr. revert n. induction l as [|c l IH]; intros n; [done|].
  rewrite <-app_comm_cons, alter_at_cons by (by destruct l, r).
  rewrite !find_cons. destruct n as [|m|]; try done.
  rewrite lookup_alter_eq. destruct (m !! c) as [n'|]; [apply IH|done].
Qed.

(** At the place of the change and below it. *)
Lemma find_alter_below f l c r n :
  find (alter_at f (l ++ [c]) n) (l ++ c :: r) =
  match find n l with
  | Some (Dir m) => f (m !! c) ≫= λ x, find x r
  | _ => None
  end.
Proof.
  rewrite find_app, find_alter_above by done.
  destruct (find n l) as [y|]; [|done]. cbn.
  destruct y as [|m|]; try done.
  rewrite find_cons. by rewrite lookup_partial_alter_eq.
Qed.

Lemma apart_split (l1 l2 : location) :
  apart l1 l2 →
  ∃ p a r1 b r2, l1 = p ++ a :: r1 ∧ l2 = p ++ b :: r2 ∧ a ≠ b.
Proof.
  revert l2. induction l1 as [|a l1 IH]; intros l2 [H1 H2].
  { destruct H1. apply prefix_nil. }
  destruct l2 as [|b l2]; [destruct H2; apply prefix_nil|].
  destruct (decide (a = b)) as [->|Hne].
  - destruct (IH l2) as (p & a' & r1 & b' & r2 & -> & -> & Hab).
    { split; intros H; [apply H1|apply H2]; by apply prefix_cons. }
    exists (b :: p), a', r1, b', r2. done.
  - exists [], a, l1, b, l2. done.
Qed.

Lemma apart_sym l1 l2 : apart l1 l2 → apart l2 l1.
Proof. intros [? ?]. by split. Qed.

Lemma find_alter_apart f l x n :
  apart l x → find (alter_at f l n) x = find n x.
Proof.
  intros (p & a & r1 & b & r2 & -> & -> & Hab)%apart_split.
  rewrite !find_app, find_alter_above by done.
  destruct (find n p) as [y|]; [|done]. cbn.
  destruct y as [|m|]; [by destruct r1| |by destruct r1].
  rewrite (find_cons (Dir m)).
  destruct r1.
  - cbn [alter_at]. rewrite find_cons. by rewrite lookup_partial_alter_ne.
  - rewrite find_cons. by rewrite lookup_alter_ne.
Qed.

(** What [remove_at] and [put_at] leave at and below their place. *)
Lemma find_remove_below l r n : l ≠ [] → find (remove_at l n) (l ++ r) = None.
Proof.
  intros Hl. destruct (snoc_cases l) as [->|(l0 & c & ->)]; [done|].
  unfold remove_at. rewrite <-app_assoc. cbn [app].
  rewrite find_alter_below. by destruct (find n l0) as [[]|].
Qed.

Lemma find_remove l n : l ≠ [] → find (remove_at l n) l = None.
Proof.
  intros Hl. pose proof (find_remove_below l [] n Hl) as H.
  by rewrite app_nil_r in H.
Qed.

Lemma find_put_below l x r n :
  l ≠ [] → (∃ m, find n (removelast l) = Some (Dir m)) →
  find (put_at l x n) (l ++ r) = find x r.
Proof.
  intros Hl [m Hm]. destruct (snoc_cases l) as [->|(l0 & c & ->)]; [done|].
  rewrite removelast_snoc in Hm.
  unfold put_at. rewrite <-app_assoc. cbn [app].
  by rewrite find_alter_below, Hm.
Qed.

Lemma find_put l x n :
  l ≠ [] → (∃ m, find n (removelast l) = Some (Dir m)) →
  find (put_at l x n) l = Some x.
Proof.
  intros. rewrite <-(app_nil_r l) at 2. by rewrite find_put_below.
Qed.

(** A change whose way is missing is no change. *)
Lemma alter_at_no_way f l c n :
  (∀ m, find n l ≠ Some (Dir m)) → alter_at f (l ++ c :: []) n = n.
Proof.
  revert n. induction l as [|a l IH]; intros n H.
  - cbn. destruct n as [|m|]; try done. by destruct (H m).
  - rewrite <-app_comm_cons, alter_at_cons by (by destruct l).
    destruct n as [|m|]; try done. f_equal.
    apply map_eq. intros i. destruct (decide (a = i)) as [->|Hne].
    + rewrite lookup_alter_eq. destruct (m !! i) as [n'|] eqn:E; [|done].
      cbn. f_equal. apply IH. intros m' Hm'. apply (H m').
      by rewrite find_cons, E.
    + by rewrite lookup_alter_ne.
Qed.

Lemma alter_at_dir f r m : r ≠ [] → ∃ m', alter_at f r (Dir m) = Dir m'.
Proof. destruct r as [|c [|c' r]]; [done|eauto..]. Qed.

(** A directory stays a directory when the tree changes elsewhere or
    further down. *)
Lemma find_alter_dir f l' l n m :
  ¬ l' `prefix_of` l → find n l = Some (Dir m) →
  ∃ m', find (alter_at f l' n) l = Some (Dir m').
Proof.
  intros Hnp Hl. destruct (decide (l `prefix_of` l')) as [[r ->]|Hnp'].
  - destruct r as [|c r].
    { destruct Hnp. by rewrite app_nil_r. }
    rewrite find_alter_above, Hl by done.
    destruct (alter_at_dir f (c :: r) m) as [m' Hm']; [done|].
    exists m'. cbv [fmap option_fmap option_map]. by rewrite Hm'.
  - rewrite find_alter_apart by done. eauto.
Qed.

Lemma prefix_removelast (x l : location) :
  x `prefix_of` removelast l → x `prefix_of` l.
Proof.
  intros H. etrans; [exact H|].
  destruct (snoc_cases l) as [->|(l0 & c & ->)]; [done|].
  rewrite removelast_snoc. by apply prefix_app_r.
Qed.

(** ** Computations that do not touch the trace *)

Lemma runs_on_fs_ret {A} (a : A) : runs_on_fs (ret a).
Proof. by exists (λ fs, (Ok a, fs)); intros []. Qed.

Lemma runs_on_fs_raise {A} e : runs_on_fs (@raise A e).
Proof. by exists (λ fs, (Raise e, fs)); intros []. Qed.

Lemma runs_on_fs_ask {A} (q : filesystem → A) : runs_on_fs (ask q).
Proof. by exists (λ fs, (Ok (q fs), fs)); intros []. Qed.

Lemma runs_on_fs_syscall op : runs_on_fs (syscall op).
Proof.
  exists (λ fs, match op fs with inr fs' => (Ok tt, fs') | inl e => (Raise e, fs) end).
  intros [fs0 tr]. unfold syscall. cbn. by destruct (op fs0).
Qed.

Lemma runs_on_fs_bind {A B} (m : M A) (k : A → M B) :
  runs_on_fs m → (∀ a, runs_on_fs (k a)) → runs_on_fs (bind m k).
Proof.
  intros [f Hf] Hk.
  assert (∃ g : A → filesystem → result B * filesystem,
    ∀ a w, k a w = ((g a (fs w)).1, mkWorld (g a (fs w)).2 (trace w))) as [g Hg].
  { exists (λ a fs0, ((k a (mkWorld fs0 [])).1, fs ((k a (mkWorld fs0 [])).2))).
    intros a w. destruct (Hk a) as [g Hg]. rewrite !Hg. done. }
  exists (λ fs0, match f fs0 with
                 | (Ok a, fs1) => g a fs1
                 | (Raise e, fs1) => (Raise e, fs1)
                 end).
  intros w. unfold bind. rewrite Hf.
  destruct (f (fs w)) as [[a|e] fs1]; cbn; [|done]. by rewrite Hg.
Qed.

Lemma runs_on_fs_try {A} (m : M A) handles h :
  runs_on_fs m → (∀ e, runs_on_fs (h e)) → runs_on_fs (try_except m handles h).
Proof.
  intros [f Hf] Hh.
  exists (λ fs0, match f fs0 with
                 | (Raise e, fs1) =>
                     if handles e
                     then ((h e (mkWorld fs1 [])).1, fs ((h e (mkWorld fs1 [])).2))
                     else (Raise e, fs1)
                 | r => r
                 end).
  intros w. unfold try_except. rewrite Hf.
  destruct (f (fs w)) as [[a|e] fs1]; cbn; [done|].
  destruct (handles e); [|done].
  destruct (Hh e) as [g Hg]. by rewrite !Hg.
Qed.

Lemma runs_on_fs_if {A} (b : bool) (m1 m2 : M A) :
  runs_on_fs m1 → runs_on_fs m2 → runs_on_fs (if b then m1 else m2).
Proof. by destruct b. Qed.

Ltac fsonly :=
  repeat first
    [ apply runs_on_fs_ret | apply runs_on_fs_raise | apply runs_on_fs_ask
    | apply runs_on_fs_syscall
    | apply runs_on_fs_bind; [|intros ?]
    | apply runs_on_fs_try; [|intros ?]
    | match goal with
      | |- runs_on_fs (match ?x with _ => _ end) => destruct x
      end
    | assumption ].

Lemma runs_on_fs_rmtree p : runs_on_fs (shutil_rmtree p).
Proof. unfold shutil_rmtree. fsonly. Qed.

Lemma runs_on_fs_mkdir_exist_ok p : runs_on_fs (Path_mkdir_exist_ok p).
Proof. unfold Path_mkdir_exist_ok, os_mkdir, Path_is_dir. fsonly. Qed.

Lemma runs_on_fs_mkdir_parents abs rp : runs_on_fs (mkdir_parents abs rp).
Proof.
  induction rp as [|c rp IH]; cbn [mkdir_parents];
    unfold os_mkdir, Path_is_dir; fsonly.
Qed.

Lemma runs_on_fs_makedirs abs rp : runs_on_fs (makedirs_rev abs rp).
Proof.
  induction rp as [|c rp IH]; cbn [makedirs_rev];
    unfold os_mkdir, Path_exists; fsonly.
Qed.

Lemma runs_on_fs_move src dst : runs_on_fs (shutil_move src dst).
Proof.
  unfold shutil_move, move_to, shutil_copytree, os_makedirs, os_rename,
    os_symlink, os_unlink, Path_is_dir, Path_exists.
  fsonly; try apply runs_on_fs_makedirs; try apply runs_on_fs_rmtree.
Qed.

Lemma runs_on_fs_trace {A} (m : M A) w r w' :
  runs_on_fs m → m w = (r, w') → trace w' = trace w.
Proof. intros [f Hf]. rewrite Hf. by intros [= _ <-]. Qed.

Lemma runs_on_fs_any_trace {A} (m : M A) w r w' tr :
  runs_on_fs m → m w = (r, w') →
  m (mkWorld (fs w) tr) = (r, mkWorld (fs w') tr).
Proof. intros [f Hf]. rewrite !Hf. by intros [= <- <-]. Qed.

(** ** Taking a computation apart *)

Lemma bind_Ok {A B} (m : M A) (k : A → M B) w b w' :
  bind m k w = (Ok b, w') → ∃ a w1, m w = (Ok a, w1) ∧ k a w1 = (Ok b, w').
Proof.
  unfold bind. destruct (m w) as [[a|e] w1]; [eauto|done].
Qed.

Lemma bind_cases {A B} (m : M A) (k : A → M B) w r w' :
  bind m k w = (r, w') →
  (∃ a w1, m w = (Ok a, w1) ∧ k a w1 = (r, w')) ∨
  (∃ e, m w = (Raise e, w') ∧ r = Raise e).
Proof.
  unfold bind. destruct (m w) as [[a|e] w1]; [eauto|].
  intros [= <- <-]. eauto.
Qed.

Lemma syscall_Ok op w u w' :
  syscall op w = (Ok u, w') → ∃ fs', op (fs w) = inr fs' ∧ w' = mkWorld fs' (trace w).
Proof.
  unfold syscall. destruct (op (fs w)) as [e|fs']; [done|].
  intros [= _ <-]. eauto.
Qed.

Lemma syscall_Raise op w e w' :
  syscall op w = (Raise e, w') → op (fs w) = inl e ∧ w' = w.
Proof.
  unfold syscall. destruct (op (fs w)) as [e'|fs']; [|done].
  by intros [= <- <-].
Qed.

Lemma syscall_cases op w (r : result unit) w' :
  syscall op w = (r, w') →
  (∃ fs', op (fs w) = inr fs' ∧ r = Ok tt ∧ w' = mkWorld fs' (trace w)) ∨
  (∃ e, op (fs w) = inl e ∧ r = Raise e ∧ w' = w).
Proof.
  unfold syscall. destruct (op (fs w)) as [e'|fs']; intros [= <- <-]; eauto.
Qed.

(** ** The frame of the directory-making calls *)

Lemma unchanged_off_refl l fs0 : unchanged_off l fs0 fs0.
Proof. done. Qed.

Lemma unchanged_off_trans l fs0 fs1 fs2 :
  unchanged_off l fs0 fs1 → unchanged_off l fs1 fs2 → unchanged_off l fs0 fs2.
Proof.
  intros [Hc1 H1] [Hc2 H2]. split; [congruence|].
  intros x Hx. by rewrite H2, H1.
Qed.

Lemma unchanged_off_mono l l' fs0 fs1 :
  l `prefix_of` l' → unchanged_off l fs0 fs1 → unchanged_off l' fs0 fs1.
Proof.
  intros Hl [Hc H]. split; [done|]. intros x Hx. apply H.
  intros Hx'. apply Hx. by etrans.
Qed.

Lemma childless_empty_dir : childless (Dir ∅).
Proof. intros c r. by rewrite find_cons, lookup_empty. Qed.

Lemma childless_link t : childless (Link t).
Proof. intros c r. by rewrite find_cons. Qed.

Lemma walk_to_find n l : walk_to n l = NoEnt → find n l = None.
Proof. unfold find. by intros ->. Qed.

Lemma os_create_inr x p fs0 fs1 :
  os_create x p fs0 = inr fs1 →
  find (root fs0) (locate fs0 p) = None ∧
  (∃ m, find (root fs0) (removelast (locate fs0 p)) = Some (Dir m)) ∧
  parts p ≠ [] ∧
  fs1 = set_root fs0 (put_at (locate fs0 p) x (root fs0)).
Proof.
  unfold os_create.
  destruct (walk_to (root fs0) (locate fs0 p)) eqn:Hw; try done.
  destruct (parts p) as [|c ps] eqn:Hp; [done|].
  destruct (find (root fs0) (removelast (locate fs0 p))) as [[|m|]|] eqn:Hd;
    try done.
  intros [= <-]. split_and!; [by apply walk_to_find|eauto|done..].
Qed.

Lemma locate_nonempty fs0 p : parts p ≠ [] → locate fs0 p ≠ [].
Proof.
  unfold locate. destruct (absolute p); [done|].
  intros H Happ. by apply app_eq_nil in Happ as [_ ?].
Qed.

Lemma put_at_unchanged_off l x fs0 :
  l ≠ [] → childless x → find (root fs0) l = None →
  unchanged_off l fs0 (set_root fs0 (put_at l x (root fs0))).
Proof.
  intros Hl Hx Hnone. split; [done|]. intros y Hy. cbn.
  destruct (decide (l `prefix_of` y)) as [[r ->]|Hly].
  - rewrite (find_below_none _ _ _ Hnone).
    destruct r as [|c r]; [destruct Hy; by rewrite app_nil_r|].
    destruct (snoc_cases l) as [->|(l0 & a & ->)]; [done|].
    unfold put_at. rewrite <-app_assoc. cbn [app].
    rewrite find_alter_below. destruct (find (root fs0) l0) as [[]|]; try done.
    cbn. apply Hx.
  - by apply find_alter_apart.
Qed.

Lemma os_create_unchanged_off x p fs0 fs1 :
  childless x → os_create x p fs0 = inr fs1 → unchanged_off (locate fs0 p) fs0 fs1.
Proof.
  intros Hx (Hnone & _ & Hp & ->)%os_create_inr.
  apply put_at_unchanged_off; [by apply locate_nonempty|done..].
Qed.

Lemma os_mkdir_frame p w r w' :
  os_mkdir p w = (r, w') →
  trace w' = trace w ∧ unchanged_off (locate (fs w) p) (fs w) (fs w').
Proof.
  intros [(fs' & H & _ & ->)|(e & _ & _ & ->)]%syscall_cases; [|done].
  split; [done|]. cbn. eapply os_create_unchanged_off, H. apply childless_empty_dir.
Qed.

Lemma locate_snoc fs0 abs ps c :
  locate fs0 (mkPath abs (ps ++ [c])) = locate fs0 (mkPath abs ps) ++ [c].
Proof. unfold locate. cbn. destruct abs; [done|by rewrite app_assoc]. Qed.

Lemma locate_cwd fs0 fs1 p : cwd fs1 = cwd fs0 → locate fs1 p = locate fs0 p.
Proof. unfold locate. by intros ->. Qed.

Lemma ask_run {A} (q : filesystem → A) w : ask q w = (Ok (q (fs w)), w).
Proof. done. Qed.

Lemma mkdir_exist_ok_frame p w r w' :
  Path_mkdir_exist_ok p w = (r, w') →
  trace w' = trace w ∧ unchanged_off (locate (fs w) p) (fs w) (fs w').
Proof.
  unfold Path_mkdir_exist_ok, try_except.
  destruct (os_mkdir p w) as [[[]|e] w1] eqn:Hm.
  - intros [= <- <-]. by apply os_mkdir_frame in Hm.
  - apply os_mkdir_frame in Hm as [Ht Hu].
    destruct (is_OSError e && _).
    + unfold bind, Path_is_dir. rewrite ask_run.
      destruct (is_dir (fs w1) p); intros [= <- <-]; done.
    + by intros [= <- <-].
Qed.

Lemma mkdir_parents_frame abs rp w r w' :
  mkdir_parents abs rp w = (r, w') →
  trace w' = trace w ∧
  unchanged_off (locate (fs w) (mkPath abs (rev rp))) (fs w) (fs w').
Proof.
  revert w r w'. induction rp as [|c rp IH]; intros w r w';
    cbn [mkdir_parents]; unfold try_except;
    destruct (os_mkdir _ w) as [[[]|e] w1] eqn:Hm;
    apply os_mkdir_frame in Hm as [Ht Hu].
  1,3: by intros [= <- <-].
  all: destruct (is_OSError e); [|by intros [= <- <-]].
  all: destruct (decide (e = FileNotFoundError)) as [->|Hne].
  1: by intros [= <- <-].
  1,3: unfold bind, Path_is_dir; rewrite ask_run;
       destruct (is_dir (fs w1) _); by intros [= <- <-].
  intros [(a & w2 & H1 & H2)|(e & H1 & ->)]%bind_cases.
  - apply IH in H1 as [Ht1 Hu1]. apply mkdir_exist_ok_frame in H2 as [Ht2 Hu2].
    split; [congruence|].
    cbn [rev] in *. rewrite locate_snoc in *.
    eapply unchanged_off_trans; [exact Hu|].
    destruct Hu as [Hc ?], Hu1 as [Hc1 ?].
    rewrite (locate_cwd (fs w)) in Hu2 by congruence.
    rewrite (locate_cwd (fs w)) in * by done.
    eapply unchanged_off_trans; [|exact Hu2].
    eapply unchanged_off_mono; [|done]. by apply prefix_app_r.
  - apply IH in H1 as [Ht1 Hu1]. split; [congruence|].
    cbn [rev] in *. rewrite locate_snoc in *.
    eapply unchanged_off_trans; [exact Hu|].
    eapply unchanged_off_mono; [|exact Hu1].
    destruct Hu as [Hc _]. rewrite (locate_cwd (fs w)) by done.
    by apply prefix_app_r.
Qed.

Lemma Path_mkdir_frame p w r w' :
  Path_mkdir p w = (r, w') →
  trace w' = trace w ∧ unchanged_off (locate (fs w) p) (fs w) (fs w').
Proof.
  unfold Path_mkdir. intros H%mkdir_parents_frame.
  rewrite rev_involutive in H. by destruct p.
Qed.

(** ** [shutil.rmtree] *)

Lemma rmtree_Ok p w u w' :
  shutil_rmtree p w = (Ok u, w') →
  parts p ≠ [] ∧
  (∃ m, lstat (fs w) p = Some (Dir m)) ∧
  w' = mkWorld (set_root (fs w) (remove_at (locate (fs w) p) (root (fs w)))) (trace w).
Proof.
  unfold shutil_rmtree, bind. rewrite ask_run.
  destruct (walk_to _ _) as [[|m|]| |] eqn:Hw; try done.
  destruct (parts p) as [|c ps] eqn:Hp; [done|].
  intros (fs' & [= <-] & ->)%syscall_Ok.
  split_and!; [done| |done]. exists m. unfold lstat, find. by rewrite Hw.
Qed.

Lemma rmtree_run p w m :
  parts p ≠ [] → lstat (fs w) p = Some (Dir m) →
  shutil_rmtree p w =
  (Ok tt, mkWorld (set_root (fs w) (remove_at (locate (fs w) p) (root (fs w)))) (trace w)).
Proof.
  intros Hp Hl. unfold shutil_rmtree, bind. rewrite ask_run.
  unfold lstat, find in Hl.
  destruct (walk_to _ _) as [[|m'|]| |]; try done.
  by destruct (parts p).
Qed.

(** ** [os.rename] *)

Lemma find_prefix_entry n l c r x :
  find n (l ++ c :: r) = Some x →
  ∃ m y, find n l = Some (Dir m) ∧ m !! c = Some y.
Proof.
  rewrite find_app. destruct (find n l) as [y|]; [|done]. cbn.
  rewrite find_cons. destruct y as [|m|]; try done.
  destruct (m !! c) eqn:E; [eauto|done].
Qed.

Lemma strict_prefix_split (d s : location) :
  d `prefix_of` s → d ≠ s → ∃ c r, s = d ++ c :: r.
Proof.
  intros [[|c r] ->] Hne; [by rewrite app_nil_r in Hne|eauto].
Qed.

Lemma find_put_after_remove s d n r0 :
  d ≠ [] → ¬ s `prefix_of` d →
  (∃ m, find r0 (removelast d) = Some (Dir m)) →
  find (put_at d n (remove_at s r0)) d = Some n.
Proof.
  intros Hd Hsd [m Hm]. apply find_put; [done|].
  eapply find_alter_dir, Hm. intros H. by apply Hsd, prefix_removelast.
Qed.

Lemma os_rename_inr src dst fs0 fs1 :
  os_rename_fs src dst fs0 = inr fs1 →
  cwd fs1 = cwd fs0 ∧ parts src ≠ [] ∧ parts dst ≠ [] ∧
  ∃ n, find (root fs0) (locate fs0 src) = Some n ∧
       find (root fs1) (locate fs0 dst) = Some n ∧
       (locate fs0 src = locate fs0 dst ∧ fs1 = fs0 ∨
        apart (locate fs0 src) (locate fs0 dst) ∧
        fs1 = set_root fs0
                (put_at (locate fs0 dst) n (remove_at (locate fs0 src) (root fs0)))).
Proof.
  unfold os_rename_fs.
  set (s := locate fs0 src). set (d := locate fs0 dst).
  destruct (find (root fs0) s) as [n|] eqn:Hs; [|done].
  destruct (parts src) as [|s0 l] eqn:Hps; [by destruct (parts dst), (find _ _)|].
  destruct (parts dst) as [|s1 l0] eqn:Hpd; [by destruct (find _ _)|].
  destruct (find (root fs0) (removelast d)) as [[|pm|]|] eqn:Hpar; try done.
  destruct (decide (s = d)) as [Hsd|Hsd].
  { intros [= <-]. split_and!; [done..|]. exists n. rewrite <-Hsd. eauto. }
  destruct (decide (s `prefix_of` d)) as [|Hpre]; [done|].
  assert (d ≠ []) as Hd by (apply locate_nonempty; congruence).
  assert (∀ fsx, fsx = set_root fs0 (put_at d n (remove_at s (root fs0))) →
            (∀ c r, s = d ++ c :: r → False) →
            cwd fsx = cwd fs0 ∧ s0 :: l ≠ [] ∧ s1 :: l0 ≠ [] ∧
            ∃ n0, Some n = Some n0 ∧ find (root fsx) d = Some n0 ∧
              (s = d ∧ fsx = fs0 ∨ apart s d ∧
               fsx = set_root fs0 (put_at d n0 (remove_at s (root fs0))))) as Hmoved.
  { intros fsx -> Hno. split_and!; [done..|]. exists n. split; [done|]. split.
    - cbn. apply find_put_after_remove; eauto.
    - right. split; [|done]. split; [done|]. intros Hds.
      destruct (strict_prefix_split d s) as (c & r & Heq); [done|done|].
      by eapply Hno. }
  destruct n as [sz|m|t], (find (root fs0) d) as [[sz'|m'|t']|] eqn:Hfd;
    try done; try destruct (decide (size m' = 0%nat)) as [Hsz|]; try done;
    intros [= <-]; apply Hmoved; try done; intros c r Heq;
    rewrite Heq in Hs; apply find_prefix_entry in Hs as (m0 & y & H1 & H2);
    rewrite Hfd in H1; try done.
  injection H1 as <-. apply map_size_empty_iff in Hsz. subst m'.
  by rewrite lookup_empty in H2.
Qed.

(** ** [os.makedirs] and [shutil.move] *)

Lemma os_mkdir_Ok p w u w' :
  os_mkdir p w = (Ok u, w') →
  parts p ≠ [] ∧
  find (root (fs w)) (locate (fs w) p) = None ∧
  find (root (fs w')) (locate (fs w) p) = Some (Dir ∅).
Proof.
  intros (fs' & (Hnone & Hpar & Hp & ->)%os_create_inr & ->)%syscall_Ok.
  split_and!; [done..|]. cbn. apply find_put; [by apply locate_nonempty|done].
Qed.

Lemma makedirs_frame abs rp w r w' :
  makedirs_rev abs rp w = (r, w') →
  trace w' = trace w ∧
  unchanged_off (locate (fs w) (mkPath abs (rev rp))) (fs w) (fs w').
Proof.
  revert w r w'. induction rp as [|c rp IH]; intros w r w'; cbn [makedirs_rev].
  { apply os_mkdir_frame. }
  intros [(a & w1 & H1 & H2)|(e & H1 & ->)]%bind_cases.
  2: assert (trace w' = trace w ∧
             unchanged_off (locate (fs w) (mkPath abs (rev rp))) (fs w) (fs w')) as [? ?].
  1: assert (trace w1 = trace w ∧
             unchanged_off (locate (fs w) (mkPath abs (rev rp))) (fs w) (fs w1)) as [? Hu].
  1,3: (destruct (abs || _); [|by unfold ret in H1; simplify_eq]);
       unfold bind, Path_exists in H1; rewrite ask_run in H1;
       (destruct (exists_ _ _); [by unfold ret in H1; simplify_eq|]);
       unfold try_except in H1;
       destruct (makedirs_rev abs rp _) as [[[]|e'] w2] eqn:Hm;
       apply IH in Hm; try destruct (bool_decide _);
       unfold ret in H1; by simplify_eq.
  - apply os_mkdir_frame in H2 as [? Hu2]. split; [congruence|].
    cbn [rev]. rewrite locate_snoc.
    eapply unchanged_off_trans.
    + eapply unchanged_off_mono; [|exact Hu]. by apply prefix_app_r.
    + destruct Hu as [Hc _]. cbn [rev] in Hu2.
      by rewrite (locate_cwd (fs w)), locate_snoc in Hu2.
  - split; [done|]. cbn [rev]. rewrite locate_snoc.
    eapply unchanged_off_mono; [|done]. by apply prefix_app_r.
Qed.

Lemma snoc_not_prefix {A} (l : list A) c : ¬ (l ++ [c]) `prefix_of` l.
Proof.
  intros [r Hr]. apply (f_equal length) in Hr.
  rewrite !length_app in Hr. cbn in Hr. lia.
Qed.

Lemma makedirs_Ok p w u w' :
  os_makedirs p w = (Ok u, w') →
  parts p ≠ [] ∧
  find (root (fs w)) (locate (fs w) p) = None ∧
  find (root (fs w')) (locate (fs w) p) = Some (Dir ∅) ∧
  trace w' = trace w ∧
  unchanged_off (locate (fs w) p) (fs w) (fs w').
Proof.
  unfold os_makedirs. intros H.
  assert (mkPath (absolute p) (rev (rev (parts p))) = p) as Hp.
  { rewrite rev_involutive. by destruct p. }
  pose proof (makedirs_frame _ _ _ _ _ H) as [Ht Hu]. rewrite Hp in Hu.
  split_and!; try done.
  all: destruct (rev (parts p)) as [|c rp] eqn:Hrev; cbn [makedirs_rev] in H.
  1,3,5: rewrite Hp in H; by apply os_mkdir_Ok in H as (? & ? & ?).
  all: rewrite Hp in H; apply bind_Ok in H as (a & w1 & H1 & H2).
  all: assert (trace w1 = trace w ∧
             unchanged_off (locate (fs w) (mkPath (absolute p) (rev rp)))
               (fs w) (fs w1)) as [? [Hc Hu1]].
  1,3,5: (destruct (absolute p || _); [|by unfold ret in H1; simplify_eq]);
       unfold bind, Path_exists in H1; rewrite ask_run in H1;
       (destruct (exists_ _ _); [by unfold ret in H1; simplify_eq|]);
       unfold try_except in H1;
       destruct (makedirs_rev _ rp _) as [[[]|e'] w2] eqn:Hm;
       apply makedirs_frame in Hm; try destruct (bool_decide _);
       unfold ret in H1; by simplify_eq.
  all: apply os_mkdir_Ok in H2 as (Hparts & Hnone & Hsome);
       rewrite (locate_cwd (fs w)) in Hnone, Hsome by done; try done.
  rewrite <-Hnone. symmetry. apply Hu1.
  rewrite <-Hp at 1. cbn [rev]. rewrite locate_snoc. apply snoc_not_prefix.
Qed.

Lemma find_remove_apart l x n : apart l x → find (remove_at l n) x = find n x.
Proof. apply find_alter_apart. Qed.

Lemma find_put_apart l y x n : apart l x → find (put_at l y n) x = find n x.
Proof. apply find_alter_apart. Qed.

Lemma find_parent_dir n l x :
  l ≠ [] → find n l = Some x → ∃ m, find n (removelast l) = Some (Dir m).
Proof.
  intros Hl H. destruct (snoc_cases l) as [->|(l0 & c & ->)]; [done|].
  rewrite removelast_snoc. apply find_snoc_dir in H as (m & ? & _). eauto.
Qed.

Lemma locate_set_root fs0 r p : locate (set_root fs0 r) p = locate fs0 p.
Proof. done. Qed.

Lemma os_unlink_Ok p w u w' :
  os_unlink p w = (Ok u, w') →
  w' = mkWorld (set_root (fs w) (remove_at (locate (fs w) p) (root (fs w)))) (trace w).
Proof.
  unfold os_unlink. intros (fs' & H & ->)%syscall_Ok.
  destruct (walk_to _ _) as [[| |]| |]; by simplify_eq.
Qed.

Lemma find_some_apart n s d x :
  find n s = Some x → find n d = None → s ≠ d → ¬ d `prefix_of` s.
Proof.
  intros Hs Hd Hne [r ->]. by rewrite find_app, Hd in Hs.
Qed.

Lemma link_apart r s d t pm :
  find r s = Some (Link t) → find r d = None →
  find r (removelast d) = Some (Dir pm) → apart s d.
Proof.
  intros Hs Hd Hpar.
  assert (s ≠ d) as Hne by (intros ->; congruence).
  split; [|by eapply find_some_apart].
  intros Hpre. destruct (strict_prefix_split _ _ Hpre Hne) as (c & k & ->).
  destruct (snoc_cases (c :: k)) as [?|(k0 & c0 & Hk0)]; [done|].
  rewrite Hk0, app_assoc, removelast_snoc in Hpar.
  rewrite find_app, Hs in Hpar.
  destruct k0; cbn in Hpar;
    first [done | by rewrite ?find_cons, ?find_nil in Hpar].
Qed.

(** When [move_to] returns, the destination holds what the source
    held, and the source is gone (unless the two are one place). *)
Lemma move_to_Ok src dst w u w' :
  move_to src dst dst w = (Ok u, w') →
  trace w' = trace w ∧ cwd (fs w') = cwd (fs w) ∧ parts dst ≠ [] ∧
  (locate (fs w) src = locate (fs w) dst ∨
   apart (locate (fs w) src) (locate (fs w) dst) ∧ lstat (fs w') src = None) ∧
  ∃ n, lstat (fs w) src = Some n ∧ lstat (fs w') dst = Some n.
Proof.
  unfold move_to, try_except.
  destruct (os_rename src dst w) as [[[]|e] w1] eqn:Hren.
  { intros [= <- <-].
    apply syscall_Ok in Hren
      as (fs' & (Hc & Hps & Hpd & n & Hs & Hd & Hcase)%os_rename_inr & ->).
    split_and!; [done..| |].
    { destruct Hcase as [[? _]|[Hap ->]]; [by left|right]. split; [done|].
      unfold lstat. cbn [fs root set_root]. rewrite locate_set_root.
      rewrite find_put_apart by by apply apart_sym.
      apply find_remove. by apply locate_nonempty. }
    exists n. split; [done|].
    unfold lstat. cbn. by rewrite (locate_cwd (fs w)). }
  apply syscall_Raise in Hren as [_ ->].
  destruct (is_OSError e); [|done].
  unfold bind at 1. rewrite ask_run.
  destruct (lstat (fs w) src) as [[|m|t]|] eqn:Hsrc; try done.
  - (* a directory, copied *)
    unfold bind at 1. rewrite ask_run.
    destruct (destinsrc (fs w) src dst) eqn:Hin; [done|].
    apply bool_decide_eq_false in Hin.
    intros (a & w1 & (b & w2 & Hmk & Hput)%bind_Ok & Hrm)%bind_Ok.
    apply makedirs_Ok in Hmk as (Hpd & Hnone & Hsome & Ht & Hc & Hu).
    apply syscall_Ok in Hput as (fs3 & Hput & ->).
    assert (lstat (fs w2) src = Some (Dir m)) as Hsrc2.
    { unfold lstat. rewrite (locate_cwd (fs w)), Hu; done. }
    rewrite Hsrc2 in Hput. injection Hput as <-.
    apply rmtree_Ok in Hrm as (Hp & _ & ->). cbn.
    unfold lstat in *. cbn [root set_root fs].
    rewrite !locate_set_root, !(locate_cwd (fs w) (fs w2)) in * by done.
    assert (apart (locate (fs w) src) (locate (fs w) dst)) as Hap.
    { split; [done|]. eapply find_some_apart; [exact Hsrc|exact Hnone|].
      intros Heq. rewrite Heq in Hsrc. congruence. }
    split_and!; [done..| |].
    { right. split; [done|]. apply find_remove. by apply locate_nonempty. }
    exists (Dir m). split; [done|].
    rewrite find_remove_apart by done.
    assert (locate (fs w) dst ≠ []) as Hnil.
    { intros Hnil. by rewrite Hnil in Hnone. }
    apply find_put; [done|]. by eapply find_parent_dir.
  - (* a link, made anew *)
    intros (a & w1 & Hsym & Hun)%bind_Ok.
    apply syscall_Ok in Hsym as (fs1 & (Hnone & [pm Hpar] & Hp & ->)%os_create_inr & ->).
    apply os_unlink_Ok in Hun as ->. cbn.
    unfold lstat in *. cbn [root set_root fs]. rewrite !locate_set_root.
    pose proof (link_apart _ _ _ _ _ Hsrc Hnone Hpar) as Hap.
    assert (locate (fs w) src ≠ []) as Hsne.
    { intros Hnil. rewrite Hnil in Hap. destruct Hap as [[] _]. apply prefix_nil. }
    split_and!; [done..| |].
    { right. split; [done|]. by apply find_remove. }
    exists (Link t). split; [done|].
    rewrite find_remove_apart by done.
    apply find_put; [by apply locate_nonempty|eauto].
Qed.

Lemma shutil_move_Ok src dst w p w' :
  shutil_move src dst w = (Ok p, w') →
  is_dir (fs w) dst = false →
  p = dst ∧ trace w' = trace w ∧ cwd (fs w') = cwd (fs w) ∧ parts dst ≠ [] ∧
  (locate (fs w) src = locate (fs w) dst ∨
   apart (locate (fs w) src) (locate (fs w) dst) ∧ lstat (fs w') src = None) ∧
  ∃ n, lstat (fs w) src = Some n ∧ lstat (fs w') dst = Some n.
Proof.
  unfold shutil_move. intros H Hd.
  apply bind_Ok in H as (isd & w1 & Hq & H).
  unfold Path_is_dir in Hq. rewrite ask_run in Hq. injection Hq as <- <-.
  rewrite Hd in H. apply bind_Ok in H as ([] & w1 & H & [= <- <-]).
  by apply move_to_Ok in H.
Qed.

(** ** The sum of the sizes *)

Lemma total_app f l1 l2 : total f (l1 ++ l2) = total f l1 + total f l2.
Proof.
  unfold total. induction l1 as [|x l1 IH]; cbn; [done|]. rewrite IH. lia.
Qed.

Lemma total_cons f x l : total f (x :: l) = f x + total f l.
Proof. done. Qed.

Lemma total_map_cons f c l :
  total f (map (cons c) l) = total (λ r, f (c :: r)) l.
Proof. unfold total. by rewrite map_map. Qed.

Lemma total_ext f g l : (∀ x, f x = g x) → total f l = total g l.
Proof. intros H. unfold total. f_equal. apply map_ext. auto. Qed.

Lemma follow_found fuel r l n :
  find r l = Some n → (∀ t, n ≠ Link t) → follow fuel r l = Some (l, n).
Proof.
  intros H Hn. destruct fuel; cbn; rewrite H; destruct n; try done;
    by destruct (Hn target).
Qed.

Lemma follow_not_found fuel r l : find r l = None → follow fuel r l = None.
Proof. intros H. destruct fuel; cbn; by rewrite H. Qed.

Lemma size_at_file r l s : find r l = Some (File s) → size_at r l = s.
Proof. intros H. unfold size_at. by rewrite (follow_found _ _ _ (File s)). Qed.

Lemma size_at_dir r l m : find r l = Some (Dir m) → size_at r l = 0.
Proof. intros H. unfold size_at. by rewrite (follow_found _ _ _ (Dir m)). Qed.

(** The entries of a directory, one after the other. *)
Lemma walk_fold_total (r : node) (here : location) (m : gmap string node) :
  (∀ c n', m !! c = Some n' →
     size_at r (here ++ [c]) + total (λ x, size_at r ((here ++ [c]) ++ x)) (walk n')
     = counted r (here ++ [c]) n') →
  total (λ x, size_at r (here ++ x)) (walk (Dir m)) = counted r here (Dir m).
Proof.
  cbn [walk counted].
  induction m as [|c n' m Hc Hfirst IH] using map_first_key_ind; intros Hent.
  { by rewrite !map_fold_empty. }
  rewrite !map_fold_insert_first_key by done.
  rewrite total_app, IH.
  - f_equal. rewrite <-(Hent c n') by apply lookup_insert_eq.
    rewrite total_cons, total_map_cons. f_equal.
    apply total_ext. intros x. by rewrite <-app_assoc.
  - intros c' n'' Hc'. apply Hent. rewrite lookup_insert_ne; [done|].
    intros ->. congruence.
Qed.

Lemma counted_entry r n : ∀ here,
  find r here = Some n →
  size_at r here + total (λ x, size_at r (here ++ x)) (walk n) = counted r here n.
Proof.
  induction n as [s|t|m IH] using node_tree_ind; intros here Hfind.
  - cbn. rewrite (size_at_file _ _ s) by done. unfold total. cbn. lia.
  - cbn. unfold total. cbn. lia.
  - rewrite (size_at_dir _ _ m) by done. rewrite N.add_0_l.
    apply walk_fold_total. intros c n' Hc.
    apply (IH c n' Hc). rewrite find_app, Hfind. cbn.
    by rewrite find_cons, Hc.
Qed.

Lemma locate_joinpath fs0 p r : locate fs0 (joinpath p r) = locate fs0 p ++ r.
Proof. unfold locate, joinpath. cbn. destruct (absolute p); [done|by rewrite app_assoc]. Qed.

Lemma st_size_size_at fs0 p : st_size fs0 p = size_at (root fs0) (locate fs0 p).
Proof.
  unfold st_size, stat, size_at.
  by destruct (follow _ _ _) as [[? []]|].
Qed.

Lemma sum_filter_files fs0 (l : list Path) :
  foldr N.add 0 (map (st_size fs0) (filter (λ f, is_file fs0 f) l))
  = foldr N.add 0 (map (st_size fs0) l).
Proof.
  induction l as [|f l IH]; [done|].
  rewrite filter_cons. destruct (decide _) as [Hf|Hf]; cbn; [by rewrite IH|].
  rewrite IH. unfold is_file, st_size in *.
  destruct (stat fs0 f) as [[]|]; try done.
Qed.

Lemma walk_nonempty n : Forall (λ x, x ≠ []) (walk n).
Proof.
  destruct n as [|m|]; cbn [walk]; try by constructor.
  apply (map_fold_weak_ind (λ acc _, Forall (λ x : location, x ≠ []) acc));
    [by constructor|].
  intros c n' m' acc _ Hacc. apply Forall_app. split; [|done].
  constructor; [done|]. by apply Forall_forall; intros x (y & -> & _)%list_elem_of_fmap.
Qed.

Lemma sum_file_sizes_counted fs0 p : sum_file_sizes fs0 p = counted_under fs0 p.
Proof.
  unfold sum_file_sizes, counted_under, rglob. rewrite sum_filter_files.
  unfold stat, lstat.
  destruct (find (root fs0) (locate fs0 p)) as [[s|m|t]|] eqn:Hf.
  - by rewrite (follow_found _ _ _ (File s)).
  - rewrite (follow_found _ _ _ (Dir m)) by done.
    cbn [fmap option_fmap option_map snd].
    pose proof (counted_entry _ _ _ Hf) as H.
    rewrite (size_at_dir _ _ _ Hf), N.add_0_l in H. rewrite <-H.
    unfold total. rewrite map_map. f_equal. apply map_ext. intros x.
    by rewrite st_size_size_at, locate_joinpath.
  - destruct (follow _ _ _) as [[l' [|m'|]]|] eqn:Hfo; try done.
    cbn [fmap option_fmap option_map snd].
    rewrite map_map.
    pose proof (walk_nonempty (Dir m')) as Hne.
    induction (walk (Dir m')) as [|x l IH]; [done|].
    apply Forall_cons in Hne as [Hx Hl]. cbn. rewrite (IH Hl).
    rewrite st_size_size_at, locate_joinpath. unfold size_at.
    rewrite follow_not_found; [done|].
    destruct x as [|c x]; [done|].
    rewrite find_app, Hf. cbn. by rewrite ?find_cons.
  - by rewrite follow_not_found.
Qed.

Lemma stat_none_is_dir fs0 p : stat fs0 p = None → is_dir fs0 p = false.
Proof. unfold is_dir. by intros ->. Qed.

(** ** Directories that stay *)

Section Within.

Variable R : filesystem → filesystem → Prop.
Hypothesis R_refl : ∀ fs0, R fs0 fs0.
Hypothesis R_trans : ∀ fs0 fs1 fs2, R fs0 fs1 → R fs1 fs2 → R fs0 fs2.

Lemma within_ret {A} (a : A) : within R (ret a).
Proof. by intros w r w' [= _ <-]. Qed.

Lemma within_raise {A} e : within R (@raise A e).
Proof. by intros w r w' [= _ <-]. Qed.

Lemma within_ask {A} (q : filesystem → A) : within R (ask q).
Proof. by intros w r w' [= _ <-]. Qed.

Lemma within_syscall op :
  (∀ fs0 fs1, op fs0 = inr fs1 → R fs0 fs1) → within R (syscall op).
Proof.
  intros Hop w r w' [(fs' & H & _ & ->)|(e & _ & _ & ->)]%syscall_cases; [|done].
  by apply Hop.
Qed.

Lemma within_bind {A B} (m : M A) (k : A → M B) :
  within R m → (∀ a, within R (k a)) → within R (bind m k).
Proof.
  intros Hm Hk w r w' [(a & w1 & H1 & H2)|(e & H1 & _)]%bind_cases.
  - eapply R_trans; [by eapply Hm|by eapply Hk].
  - by eapply Hm.
Qed.

Lemma within_try {A} (m : M A) handles h :
  within R m → (∀ e, within R (h e)) → within R (try_except m handles h).
Proof.
  intros Hm Hh w r w'. unfold try_except.
  destruct (m w) as [[a|e] w1] eqn:H1.
  - intros [= _ <-]. by eapply Hm.
  - destruct (handles e).
    + intros H2. eapply R_trans; [by eapply Hm|by eapply Hh].
    + intros [= _ <-]. by eapply Hm.
Qed.

End Within.

Ltac within_steps :=
  repeat first
    [ apply within_ret; assumption
    | apply within_raise; assumption
    | apply within_ask; assumption
    | apply within_bind; [assumption| |intros ?]
    | apply within_try; [assumption| |intros ?]
    | match goal with
      | |- within _ (match ?x with _ => _ end) => destruct x
      end
    | assumption ].

Lemma keeps_dirs_refl fs0 : keeps_dirs fs0 fs0.
Proof. intros x d. eauto. Qed.

Lemma keeps_dirs_trans fs0 fs1 fs2 :
  keeps_dirs fs0 fs1 → keeps_dirs fs1 fs2 → keeps_dirs fs0 fs2.
Proof. intros H1 H2 x d [d' Hd']%H1. by eapply H2. Qed.

Lemma os_create_keeps_dirs x p fs0 fs1 :
  os_create x p fs0 = inr fs1 → keeps_dirs fs0 fs1.
Proof.
  intros (Hnone & _ & _ & ->)%os_create_inr y d Hy. cbn.
  eapply find_alter_dir, Hy. intros [k ->]. by rewrite find_app, Hnone in Hy.
Qed.

Lemma os_mkdir_keeps_dirs p : within keeps_dirs (os_mkdir p).
Proof.
  apply within_syscall; [apply keeps_dirs_refl|].
  intros fs0 fs1. apply os_create_keeps_dirs.
Qed.

Lemma mkdir_exist_ok_keeps_dirs p : within keeps_dirs (Path_mkdir_exist_ok p).
Proof.
  pose proof keeps_dirs_refl. pose proof keeps_dirs_trans.
  pose proof (os_mkdir_keeps_dirs p).
  unfold Path_mkdir_exist_ok, Path_is_dir. within_steps.
Qed.

Lemma mkdir_parents_keeps_dirs abs rp : within keeps_dirs (mkdir_parents abs rp).
Proof.
  pose proof keeps_dirs_refl. pose proof keeps_dirs_trans.
  induction rp as [|c rp IH]; cbn [mkdir_parents]; unfold Path_is_dir;
    within_steps; first [apply os_mkdir_keeps_dirs|apply mkdir_exist_ok_keeps_dirs].
Qed.

Lemma makedirs_keeps_dirs abs rp : within keeps_dirs (makedirs_rev abs rp).
Proof.
  pose proof keeps_dirs_refl. pose proof keeps_dirs_trans.
  induction rp as [|c rp IH]; cbn [makedirs_rev]; unfold Path_exists;
    within_steps; apply os_mkdir_keeps_dirs.
Qed.

Lemma present_dir_not_below r l x d :
  (∀ d', find r l ≠ Some (Dir d')) → find r x = Some (Dir d) → ¬ l `prefix_of` x.
Proof.
  intros Hl Hx [[|c k] ->].
  - rewrite app_nil_r in Hx. by eapply Hl.
  - apply find_prefix_dir in Hx as [d' Hd']. by eapply Hl.
Qed.

Lemma stat_none_not_dir fs0 p d :
  stat fs0 p = None → find (root fs0) (locate fs0 p) ≠ Some (Dir d).
Proof.
  unfold stat. intros Hst Hf. by rewrite (follow_found _ _ _ (Dir d)) in Hst.
Qed.

(** A move onto a place that did not exist keeps the directories that
    are not part of what is moved. *)
Lemma move_to_keeps_dirs src dst w u w' :
  move_to src dst dst w = (Ok u, w') →
  stat (fs w) dst = None →
  ∀ x d, find (root (fs w)) x = Some (Dir d) →
         ¬ locate (fs w) src `prefix_of` x →
         ∃ d', find (root (fs w')) x = Some (Dir d').
Proof.
  intros H Hst x d Hx Hsx.
  assert (¬ locate (fs w) dst `prefix_of` x) as Hdx.
  { eapply present_dir_not_below; [|exact Hx].
    intros d'. by apply stat_none_not_dir. }
  unfold move_to, try_except in H.
  destruct (os_rename src dst w) as [[[]|e] w1] eqn:Hren.
  { injection H as _ <-.
    apply syscall_Ok in Hren
      as (fs' & (Hc & Hps & Hpd & n & Hs & Hd & Hcase)%os_rename_inr & ->).
    destruct Hcase as [[_ ->]|[_ ->]]; [eauto|]. cbn.
    destruct (find_alter_dir (λ _, None) _ _ _ _ Hsx Hx) as [d1 Hd1].
    by eapply find_alter_dir. }
  apply syscall_Raise in Hren as [_ ->].
  destruct (is_OSError e); [|discriminate].
  unfold bind at 1 in H. rewrite ask_run in H.
  destruct (lstat (fs w) src) as [[|m|t]|] eqn:Hsrc; try discriminate.
  - unfold bind at 1 in H. rewrite ask_run in H.
    destruct (destinsrc (fs w) src dst); [discriminate|].
    apply bind_Ok in H as (a & w1 & (b & w2 & Hmk & Hput)%bind_Ok & Hrm).
    pose proof (makedirs_keeps_dirs _ _ _ _ _ Hmk x d Hx) as [d2 Hd2].
    apply makedirs_Ok in Hmk as (Hpd & Hnone & Hsome & Ht & Hc & Hu).
    apply syscall_Ok in Hput as (fs3 & Hput & ->).
    destruct (lstat (fs w2) src) as [n|]; [|discriminate]. injection Hput as <-.
    apply rmtree_Ok in Hrm as (Hp & _ & ->). cbn [fs root set_root].
    rewrite !locate_set_root, !(locate_cwd (fs w) (fs w2)) by done.
    destruct (find_alter_dir (λ _, Some n) _ _ _ _ Hdx Hd2) as [d3 Hd3].
    by eapply find_alter_dir.
  - apply bind_Ok in H as (a & w1 & Hsym & Hun).
    apply syscall_Ok in Hsym as (fs1 & (_ & _ & _ & ->)%os_create_inr & ->).
    apply os_unlink_Ok in Hun as ->. cbn [fs root set_root].
    rewrite !locate_set_root.
    destruct (find_alter_dir (λ _, Some (Link t)) _ _ _ _ Hdx Hx) as [d3 Hd3].
    by eapply find_alter_dir.
Qed.

Lemma shutil_move_keeps_dirs src dst w p w' :
  shutil_move src dst w = (Ok p, w') →
  stat (fs w) dst = None →
  ∀ x d, find (root (fs w)) x = Some (Dir d) →
         ¬ locate (fs w) src `prefix_of` x →
         ∃ d', find (root (fs w')) x = Some (Dir d').
Proof.
  unfold shutil_move. intros H Hst.
  apply bind_Ok in H as (isd & w1 & Hq & H).
  unfold Path_is_dir in Hq. rewrite ask_run in Hq. injection Hq as <- <-.
  rewrite (stat_none_is_dir _ _ Hst) in H.
  apply bind_Ok in H as ([] & w1 & H & [= <- <-]).
  by eapply move_to_keeps_dirs.
Qed.

Lemma Path_mkdir_keeps_dirs p : within keeps_dirs (Path_mkdir p).
Proof. apply mkdir_parents_keeps_dirs. Qed.

(** ** The run of [export_model] *)

Lemma emit_run e w : emit e w = (Ok tt, logged e w).
Proof. done. Qed.

Lemma emit_Ok e w u w' : emit e w = (Ok u, w') → w' = logged e w.
Proof. by intros [= <-]. Qed.

(** After the removal, or without it, [p] does not exist. *)
Lemma rmtree_absent p w u w' :
  shutil_rmtree p w = (Ok u, w') → stat (fs w') p = None.
Proof.
  intros (Hp & _ & ->)%rmtree_Ok. unfold stat. cbn [fs root set_root].
  rewrite locate_set_root.
  rewrite follow_not_found; [done|].
  apply find_remove. by apply locate_nonempty.
Qed.

Lemma locate_parent fs0 p :
  parts p ≠ [] → locate fs0 (parent p) = removelast (locate fs0 p).
Proof.
  intros Hp. unfold locate, parent. cbn. destruct (absolute p); [done|].
  by rewrite removelast_app.
Qed.

Lemma removelast_not_prefix (l : location) : l ≠ [] → ¬ l `prefix_of` removelast l.
Proof.
  intros Hl. destruct (snoc_cases l) as [->|(l0 & c & ->)]; [done|].
  rewrite removelast_snoc. apply snoc_not_prefix.
Qed.

Lemma os_mkdir_no_parts p w r w' :
  parts p = [] → os_mkdir p w = (r, w') → w' = w.
Proof.
  intros Hp [(fs' & (_ & _ & ? & _)%os_create_inr & _)|(e & _ & _ & ->)]%syscall_cases;
    done.
Qed.

Lemma os_mkdir_found p w n :
  find (root (fs w)) (locate (fs w) p) = Some n →
  os_mkdir p w = (Raise FileExistsError, w).
Proof.
  unfold find, os_mkdir, syscall, os_create. intros H.
  by destruct (walk_to _ _).
Qed.

Lemma is_dir_found fs0 p m :
  find (root fs0) (locate fs0 p) = Some (Dir m) → is_dir fs0 p = true.
Proof.
  intros H. unfold is_dir, stat. by rewrite (follow_found _ _ _ (Dir m)).
Qed.

(** Making a directory that is there changes nothing. *)
Lemma mkdir_parents_found abs rp w m :
  find (root (fs w)) (locate (fs w) (mkPath abs (rev rp))) = Some (Dir m) →
  mkdir_parents abs rp w = (Ok tt, w).
Proof.
  intros H. destruct rp; cbn [mkdir_parents]; unfold try_except;
    rewrite (os_mkdir_found _ _ _ H); cbn [is_OSError];
    (destruct (decide _); [done|]);
    unfold bind, Path_is_dir; rewrite ask_run;
    by rewrite (is_dir_found _ _ _ H).
Qed.

Lemma mkdir_parents_no_parts abs w r w' :
  mkdir_parents abs [] w = (r, w') → w' = w.
Proof.
  cbn [mkdir_parents]. unfold try_except.
  destruct (os_mkdir _ w) as [[[]|e] w1] eqn:Hm;
    apply os_mkdir_no_parts in Hm as ->; try done.
  1: by intros [= _ <-].
  destruct (is_OSError e); [|by intros [= _ <-]].
  destruct (decide _); [by intros [= _ <-]|].
  unfold bind, Path_is_dir. rewrite ask_run.
  by destruct (is_dir _ _); intros [= _ <-].
Qed.

(** Making the parent of [p] does not make [p]. *)
Lemma mkdir_parent_keeps_absent p w r w' :
  Path_mkdir (parent p) w = (r, w') →
  stat (fs w) p = None → stat (fs w') p = None.
Proof.
  intros Hmk Hst.
  destruct (decide (parts p = [])) as [Hp|Hp].
  { unfold Path_mkdir, parent in Hmk. cbn in Hmk. rewrite Hp in Hmk. cbn in Hmk.
    by apply mkdir_parents_no_parts in Hmk as ->. }
  destruct (find (root (fs w)) (locate (fs w) p)) as [n|] eqn:Hf.
  - destruct (find_parent_dir _ _ _ (locate_nonempty _ _ Hp) Hf) as [m Hm].
    rewrite <-locate_parent in Hm by done.
    unfold Path_mkdir in Hmk.
    rewrite (mkdir_parents_found _ _ _ m) in Hmk.
    + by injection Hmk as <- <-.
    + rewrite rev_involutive. by destruct (parent p).
  - apply Path_mkdir_frame in Hmk as [_ [Hc Hu]].
    unfold stat. rewrite (locate_cwd (fs w)) by done.
    rewrite follow_not_found; [done|]. rewrite Hu; [done|].
    rewrite locate_parent by done.
    apply removelast_not_prefix. by apply locate_nonempty.
Qed.

Section Run.

Context {Model : Type}.
Variable YOLO : string → filesystem → (exn + Model) * filesystem.
Variable Model_export : Model → string → filesystem → (exn + unit) * filesystem.

Abbreviation run := (export_model YOLO Model_export).

Lemma external_Ok {A} (call : filesystem → (exn + A) * filesystem) w a w' :
  external call w = (Ok a, w') →
  ∃ fs', call (fs w) = (inr a, fs') ∧ w' = mkWorld fs' (trace w).
Proof.
  unfold external. destruct (call (fs w)) as [[e|a'] fs']; [done|].
  intros [= <- <-]. eauto.
Qed.

(** A run that returns, taken apart: the framework loaded the model
    and exported it, leaving the file system [fs2]; then [output_dir]
    holds what lay at the export directory in [fs2]. *)
Lemma run_Ok model_name output_dir w u w' :
  run model_name output_dir w = (Ok u, w') →
  let export_dir := Path_of_name (model_name +:+ "_web_model") in
  ∃ model fs1 fs2 n mb,
    YOLO (model_name +:+ ".pt") (fs w) = (inr model, fs1) ∧
    Model_export model "tfjs" fs1 = (inr tt, fs2) ∧
    cwd (fs w') = cwd fs2 ∧
    parts output_dir ≠ [] ∧
    lstat fs2 export_dir = Some n ∧
    lstat (fs w') output_dir = Some n ∧
    (locate fs2 export_dir = locate fs2 output_dir ∧ (∀ d, n ≠ Dir d) ∨
     apart (locate fs2 export_dir) (locate fs2 output_dir) ∧
     lstat (fs w') export_dir = None) ∧
    (∀ x d, find (root fs2) x = Some (Dir d) →
            ¬ locate fs2 output_dir `prefix_of` x →
            ¬ locate fs2 export_dir `prefix_of` x →
            ∃ d', find (root (fs w')) x = Some (Dir d')) ∧
    format_megabytes (sum_file_sizes (fs w') output_dir) = Some mb ∧
    trace w' = trace w ++ script model_name output_dir (exists_ fs2 output_dir) mb.
Proof.
  unfold export_model. intros H.
  apply bind_Ok in H as (? & w1 & ->%emit_Ok & H).
  apply bind_Ok in H as (? & w2 & ->%emit_Ok & H).
  apply bind_Ok in H as (model & w3 & (fs1 & Hload & ->)%external_Ok & H).
  apply bind_Ok in H as (? & w4 & ->%emit_Ok & H).
  apply bind_Ok in H as (? & w5 & ->%emit_Ok & H).
  apply bind_Ok in H as ([] & w6 & (fs2 & Hexp & ->)%external_Ok & H).
  apply bind_Ok in H as (? & w7 & ->%emit_Ok & H).
  apply bind_Ok in H as (ex & w8 & [= <- <-] & H).
  apply bind_Ok in H as (? & w9 & Hrm & H).
  apply bind_Ok in H as (? & w10 & ->%emit_Ok & H).
  apply bind_Ok in H as (? & w11 & Hmk & H).
  apply bind_Ok in H as (? & w12 & ->%emit_Ok & H).
  apply bind_Ok in H as (p & w13 & Hmv & H).
  apply bind_Ok in H as (? & w14 & ->%emit_Ok & H).
  apply bind_Ok in H as (tot & w15 & [= <- <-] & H).
  apply bind_Ok in H as (? & w16 & ->%emit_Ok & H).
  match type of H with
  | context [format_megabytes ?t] => destruct (format_megabytes t) as [mb|] eqn:Hmb
  end; [|by unfold raise in H].
  apply emit_Ok in H as ->.
  cbn [fs trace logged] in *.
  exists model, fs1, fs2.
  (* the removal *)
  assert (stat (fs w9) output_dir = None ∧ cwd (fs w9) = cwd fs2 ∧
          (∀ x, ¬ locate fs2 output_dir `prefix_of` x →
                ¬ x `prefix_of` locate fs2 output_dir →
                find (root (fs w9)) x = find (root fs2) x) ∧
          (∀ x d, find (root fs2) x = Some (Dir d) →
                  ¬ locate fs2 output_dir `prefix_of` x →
                  ∃ d', find (root (fs w9)) x = Some (Dir d')) ∧
          ((exists_ fs2 output_dir = true ∧
            (∃ m, lstat fs2 output_dir = Some (Dir m)) ∧
            ∀ r, find (root (fs w9)) (locate fs2 output_dir ++ r) = None) ∨
           exists_ fs2 output_dir = false ∧ fs w9 = fs2) ∧
          trace w9 = trace w ++
            [ Printed ("Loading " +:+ model_name +:+ "...");
              Call_YOLO (model_name +:+ ".pt");
              Printed "Exporting to TensorFlow.js format...";
              Call_export "tfjs";
              Call_exists output_dir ] ++
            (if exists_ fs2 output_dir then [Call_rmtree output_dir] else []))
    as (Habs & Hc9 & Hfr9 & Hdirs9 & Hcase & Htr9).
  { destruct (exists_ fs2 output_dir) eqn:Hex.
    - apply bind_Ok in Hrm as (? & wr & ->%emit_Ok & Hrm).
      pose proof (rmtree_absent _ _ _ _ Hrm) as Habs.
      apply rmtree_Ok in Hrm as (Hp & Hdir & ->). cbn [fs trace logged] in *.
      split_and!; [done|done| | | |by rewrite <-!app_assoc].
      + intros y H1 H2. cbn. by apply find_remove_apart.
      + intros y d Hy Hny. cbn. by eapply find_alter_dir.
      + left. split_and!; [done..|]. intros r. cbn.
        apply find_remove_below. by apply locate_nonempty.
    - unfold ret in Hrm. injection Hrm as _ <-.
      cbn [fs trace logged]. split_and!; try done.
      + unfold exists_ in Hex. by destruct (stat fs2 output_dir).
      + eauto.
      + by right.
      + by rewrite <-!app_assoc. }
  (* the parent *)
  pose proof (mkdir_parent_keeps_absent _ _ _ _ Hmk Habs) as Habs11.
  pose proof (Path_mkdir_frame _ _ _ _ Hmk) as [Htr11 [Hc11 Hfr11]].
  pose proof (Path_mkdir_keeps_dirs _ _ _ _ Hmk) as Hdirs11.
  cbn [fs trace logged] in *.
  (* the move *)
  pose proof (shutil_move_keeps_dirs _ _ _ _ _ Hmv Habs11) as Hdirs13.
  apply shutil_move_Ok in Hmv as (-> & Htr13 & Hc13 & Hparts & Hrel & n & Hsrc & Hdst);
    [|by apply stat_none_is_dir].
  cbn [fs trace logged] in *.
  exists n, mb. split_and!; try done.
  - congruence.
  - unfold lstat in *.
    rewrite !(locate_cwd fs2 (fs w11)) in * by congruence.
    rewrite !(locate_cwd fs2 (fs w9)) in * by congruence.
    set (lE := locate fs2 (Path_of_name (model_name +:+ "_web_model"))) in *.
    set (lO := locate fs2 output_dir) in *.
    assert (find (root (fs w9)) lE = Some n) as HE9.
    { destruct (decide (parts output_dir = [])) as [Hp|Hp].
      - unfold Path_mkdir, parent in Hmk. cbn in Hmk. rewrite Hp in Hmk.
        cbn in Hmk. by apply mkdir_parents_no_parts in Hmk as ->.
      - rewrite <-Hfr11; [done|].
        rewrite locate_parent by done. fold lO. intros Hpre.
        assert (lO ≠ []) as HlO by by apply locate_nonempty.
        destruct Hrel as [Heq|[[Hn _] _]].
        + rewrite Heq in Hpre. by apply removelast_not_prefix in Hpre.
        + by apply Hn, prefix_removelast. }
    destruct Hcase as [(_ & _ & Hgone)|[_ Heq]]; [|by rewrite <-Heq].
    destruct (decide (lO `prefix_of` lE)) as [[r Hr]|HOE].
    { rewrite Hr, Hgone in HE9. done. }
    rewrite <-Hfr9; [done|done|].
    destruct Hrel as [Heq|[[Hn _] _]]; [|done].
    destruct HOE. by rewrite Heq.
  - unfold stat, lstat in *.
    rewrite !(locate_cwd fs2 (fs w11)) in * by congruence.
    destruct Hrel as [Heq|Hap]; [left|by right]. split; [done|].
    intros d ->.
    rewrite <-Heq, (follow_found _ _ _ (Dir d)) in Habs11; done.
  - intros y d Hy HnO HnE.
    destruct (Hdirs9 y d Hy HnO) as [d1 Hd1].
    destruct (Hdirs11 y d1 Hd1) as [d2 Hd2].
    apply (Hdirs13 y d2 Hd2).
    by rewrite (locate_cwd fs2) by congruence.
  - rewrite Htr13, Htr11, Htr9. unfold script, calls.
    rewrite <-!app_assoc. done.
Qed.


(** ** When the move fails *)

Lemma find_walk_to n l x : find n l = Some x ↔ walk_to n l = Found x.
Proof.
  unfold find. destruct (walk_to n l); split; intros H; by simplify_eq.
Qed.

Lemma makedirs_rev_cons abs c rp' :
  makedirs_rev abs (c :: rp') =
  (makedirs_head abs rp' ;; os_mkdir (mkPath abs (rev (c :: rp')))).
Proof. done. Qed.

Lemma makedirs_head_frame abs rp' w r w' :
  makedirs_head abs rp' w = (r, w') →
  unchanged_off (locate (fs w) (mkPath abs (rev rp'))) (fs w) (fs w') ∧
  (exists_ (fs w) (mkPath abs (rev rp')) = true → r = Ok tt ∧ w' = w).
Proof.
  unfold makedirs_head.
  destruct (abs || _); [|by intros [= <- <-]].
  unfold bind, Path_exists. rewrite ask_run.
  destruct (exists_ _ _); [by intros [= <- <-]|].
  unfold try_except.
  destruct (makedirs_rev abs rp' w) as [[[]|e] w1] eqn:Hm;
    apply makedirs_frame in Hm as [_ Hu]; try destruct (bool_decide _);
    by intros [= <- <-].
Qed.

Lemma exists_found fs0 p m :
  find (root fs0) (locate fs0 p) = Some (Dir m) → exists_ fs0 p = true.
Proof.
  intros H. unfold exists_, stat. by rewrite (follow_found _ _ _ (Dir m)).
Qed.

Lemma stat_cwd fs0 fs1 p :
  cwd fs1 = cwd fs0 → root fs1 = root fs0 → stat fs1 p = stat fs0 p.
Proof. intros Hc Hr. unfold stat. by rewrite (locate_cwd fs0), Hr. Qed.

(** [os.makedirs] that fails has not made its last directory. *)
Lemma makedirs_keeps_absent p w e w' :
  os_makedirs p w = (Raise e, w') →
  stat (fs w) p = None → stat (fs w') p = None.
Proof.
  unfold os_makedirs. intros H Hst.
  assert (mkPath (absolute p) (rev (rev (parts p))) = p) as Hp.
  { rewrite rev_involutive. by destruct p. }
  destruct (rev (parts p)) as [|c rp] eqn:Hrev.
  { cbn [makedirs_rev] in H. by apply syscall_Raise in H as [_ ->]. }
  rewrite makedirs_rev_cons, Hp in H.
  assert (locate (fs w) p = locate (fs w) (mkPath (absolute p) (rev rp)) ++ [c])
    as Hloc by (by rewrite <-Hp at 1; cbn [rev]; rewrite locate_snoc).
  destruct (find (root (fs w)) (locate (fs w) p)) as [x|] eqn:Hf.
  - rewrite Hloc in Hf. apply find_snoc_dir in Hf as (m & Hm & _).
    apply exists_found in Hm.
    apply bind_cases in H as [(a & w1 & H1 & H2)|(e' & H1 & _)].
    + apply makedirs_head_frame in H1 as [_ H1]. destruct (H1 Hm) as [_ ->].
      by apply syscall_Raise in H2 as [_ ->].
    + apply makedirs_head_frame in H1 as [_ H1]. by destruct (H1 Hm) as [[=] _].
  - assert (∀ w1 r1, makedirs_head (absolute p) rp w = (r1, w1) →
              stat (fs w1) p = None) as Hhead.
    { intros w1 r1 [[Hc Hu] _]%makedirs_head_frame.
      unfold stat. rewrite (locate_cwd (fs w)) by done.
      rewrite follow_not_found; [done|]. rewrite Hu; [done|].
      rewrite Hloc. apply snoc_not_prefix. }
    apply bind_cases in H as [(a & w1 & H1 & H2)|(e' & H1 & _)].
    + apply syscall_Raise in H2 as [_ ->]. by eapply Hhead.
    + by eapply Hhead.
Qed.

Lemma walk_to_put_apart l y x n :
  apart l x → walk_to (put_at l y n) x = walk_to n x ∨
              find (put_at l y n) x = None ∧ find n x = None.
Proof.
  intros H. pose proof (find_put_apart l y x n H) as Hf.
  destruct (find n x) as [z|] eqn:Hz.
  - left. apply find_walk_to in Hf. apply find_walk_to in Hz. congruence.
  - by right.
Qed.

(** With a destination that does not exist, a move that fails leaves
    it so. *)
Lemma move_to_Raise src dst w e w' :
  parts src ≠ [] →
  move_to src dst dst w = (Raise e, w') →
  stat (fs w) dst = None → stat (fs w') dst = None.
Proof.
  intros Hps H Hst. unfold move_to, try_except in H.
  destruct (os_rename src dst w) as [[[]|e0] w1] eqn:Hren; [discriminate|].
  apply syscall_Raise in Hren as [_ ->].
  destruct (is_OSError e0); [|by injection H as _ <-].
  unfold bind at 1 in H. rewrite ask_run in H.
  destruct (lstat (fs w) src) as [[|m|t]|] eqn:Hsrc;
    try by (unfold raise in H; injection H as _ <-).
  - (* a directory *)
    unfold bind at 1 in H. rewrite ask_run in H.
    destruct (destinsrc (fs w) src dst) eqn:Hin;
      [by unfold raise in H; injection H as _ <-|].
    apply bool_decide_eq_false in Hin.
    apply bind_cases in H as [(a & w1 & H1 & H2)|(e' & H1 & _)].
    + exfalso.
      apply bind_Ok in H1 as (b & w2 & Hmk & Hput).
      apply makedirs_Ok in Hmk as (Hpd & Hnone & Hsome & Ht & Hc & Hu).
      assert (lstat (fs w2) src = Some (Dir m)) as Hsrc2.
      { unfold lstat. rewrite (locate_cwd (fs w)), Hu; done. }
      apply syscall_Ok in Hput as (fs3 & Hput & ->).
      rewrite Hsrc2 in Hput. injection Hput as <-.
      erewrite rmtree_run in H2; [done|done|].
      unfold lstat in *. cbn [fs root set_root].
      rewrite locate_set_root, !(locate_cwd (fs w) (fs w2)) in * by done.
      rewrite find_put_apart; [done|].
      split; [|done]. eapply find_some_apart; [exact Hsrc|exact Hnone|].
      intros Heq. rewrite Heq in Hsrc. congruence.
    + unfold shutil_copytree in H1.
      apply bind_cases in H1 as [(b & w2 & Hmk & Hput)|(e'' & Hmk & _)].
      * exfalso.
        apply makedirs_Ok in Hmk as (Hpd & Hnone & Hsome & Ht & Hc & Hu).
        apply syscall_Raise in Hput as [Hput _].
        unfold lstat in *. rewrite (locate_cwd (fs w)), Hu, Hsrc in Hput; done.
      * by eapply makedirs_keeps_absent.
  - (* a link *)
    apply bind_cases in H as [(a & w1 & H1 & H2)|(e' & H1 & _)].
    + exfalso.
      apply syscall_Ok in H1 as (fs1 & (Hnone & Hpar & Hp & ->)%os_create_inr & ->).
      unfold os_unlink in H2. apply syscall_Raise in H2 as [H2 _].
      cbn [fs root set_root] in H2. rewrite locate_set_root in H2.
      unfold lstat in Hsrc.
      destruct Hpar as [pm Hpar].
      pose proof (apart_sym _ _ (link_apart _ _ _ _ _ Hsrc Hnone Hpar)) as Hap.
      destruct (walk_to_put_apart _ (Link t) _ (root (fs w)) Hap) as [Hw|[_ Hn]];
        [|congruence].
      apply find_walk_to in Hsrc. rewrite Hw, Hsrc in H2. done.
    + by apply syscall_Raise in H1 as [_ ->].
Qed.

Lemma shutil_move_Raise src dst w e w' :
  parts src ≠ [] →
  shutil_move src dst w = (Raise e, w') →
  stat (fs w) dst = None → stat (fs w') dst = None.
Proof.
  intros Hps H Hst. unfold shutil_move in H.
  unfold bind at 1, Path_is_dir in H. rewrite ask_run in H.
  rewrite (stat_none_is_dir _ _ Hst) in H.
  apply bind_cases in H as [(a & w1 & H1 & H2)|(e' & H1 & _)]; [discriminate|].
  by eapply move_to_Raise.
Qed.

(** ** Every run, whatever its end *)

Lemma emit_not_Raise e w e' w' : emit e w = (Raise e', w') → False.
Proof. done. Qed.

Lemma external_cases {A} (call : filesystem → (exn + A) * filesystem) w r w' :
  external call w = (r, w') →
  trace w' = trace w ∧
  ((∃ a, r = Ok a ∧ call (fs w) = (inr a, fs w')) ∨
   (∃ e, r = Raise e ∧ call (fs w) = (inl e, fs w'))).
Proof.
  unfold external. destruct (call (fs w)) as [[e|a] fs'];
    intros [= <- <-]; cbn; eauto.
Qed.

(** The removal step: afterwards [output_dir] does not exist, or the
    removal has failed. *)
Lemma removal_step output_dir (ex : bool) w r w' :
  ex = exists_ (fs w) output_dir →
  (if ex
   then emit (Call_rmtree output_dir) ;; shutil_rmtree output_dir
   else ret tt) w = (r, w') →
  trace w' = trace w ++ (if ex then [Call_rmtree output_dir] else []) ∧
  (r = Ok tt → stat (fs w') output_dir = None) ∧
  (∀ e, r = Raise e → ex = true).
Proof.
  intros Hex. symmetry in Hex. destruct ex.
  - intros [(a & w1 & ->%emit_Ok & H)|(e & []%emit_not_Raise & _)]%bind_cases.
    pose proof (runs_on_fs_trace _ _ _ _ (runs_on_fs_rmtree _) H) as Ht.
    split_and!; [done| |done].
    intros ->. by eapply rmtree_absent.
  - intros [= <- <-]. rewrite app_nil_r. split_and!; [done| |done].
    intros _. unfold exists_ in Hex. by destruct (stat _ _).
Qed.

Lemma prefix_of_app_l {A} (l k : list A) : l `prefix_of` l ++ k.
Proof. by exists k. Qed.

Lemma run_outcome model_name output_dir w r w' :
  run model_name output_dir w = (r, w') →
  ∃ t removed mb,
    trace w' = trace w ++ t ∧
    [ Printed ("Loading " +:+ model_name +:+ "...");
      Call_YOLO (model_name +:+ ".pt") ] `prefix_of` t ∧
    t `prefix_of` script model_name output_dir removed mb ∧
    (r = Ok tt → t = script model_name output_dir removed mb) ∧
    (last t = Some (Call_mkdir (parent output_dir)) ∨
     last t = Some (Call_move (Path_of_name (model_name +:+ "_web_model")) output_dir) →
     r ≠ Ok tt ∧ stat (fs w') output_dir = None).
Proof.
  unfold export_model. intros H.
  apply bind_cases in H as [(? & w1 & ->%emit_Ok & H)|(? & []%emit_not_Raise & _)].
  apply bind_cases in H as [(? & w2 & ->%emit_Ok & H)|(? & []%emit_not_Raise & _)].
  apply bind_cases in H as [(model & w3 & Hload & H)|(e & Hload & ->)];
    apply external_cases in Hload as [Ht3 _]; cbn [fs trace logged] in Ht3.
  2: { eexists _, false, ""; split_and!;
         [by rewrite Ht3, <-app_assoc|by eexists|by eexists|done|by intros [|]]. }
  apply bind_cases in H as [(? & w4 & ->%emit_Ok & H)|(? & []%emit_not_Raise & _)].
  apply bind_cases in H as [(? & w5 & ->%emit_Ok & H)|(? & []%emit_not_Raise & _)].
  apply bind_cases in H as [([] & w6 & Hexp & H)|(e & Hexp & ->)];
    apply external_cases in Hexp as [Ht6 _]; cbn [fs trace logged] in Ht6.
  2: { eexists _, false, ""; split_and!;
         [by rewrite Ht6, Ht3, <-!app_assoc|by eexists|by eexists|done|by intros [|]]. }
  apply bind_cases in H as [(? & w7 & ->%emit_Ok & H)|(? & []%emit_not_Raise & _)].
  apply bind_cases in H as [(ex & w8 & [= <- <-] & H)|(? & [=] & _)].
  cbn [fs trace logged] in H.
  apply bind_cases in H as [([] & w9 & Hrm & H)|(e & Hrm & ->)];
    apply (removal_step output_dir _ (logged (Call_exists output_dir) w6) _ _ eq_refl)
      in Hrm as (Ht9 & Habs9 & Hex9);
    cbn [fs trace logged] in *.
  2: { rewrite (Hex9 e eq_refl) in Ht9.
       eexists _, true, ""; split_and!;
         [by rewrite Ht9, Ht6, Ht3, <-!app_assoc|by eexists|by eexists|done|by intros [|]]. }
  specialize (Habs9 eq_refl).
  apply bind_cases in H as [(? & w10 & ->%emit_Ok & H)|(? & []%emit_not_Raise & _)].
  apply bind_cases in H as [([] & w11 & Hmk & H)|(e & Hmk & ->)];
    pose proof (mkdir_parent_keeps_absent _ _ _ _ Hmk Habs9) as Habs11;
    apply Path_mkdir_frame in Hmk as [Ht11 _]; cbn [fs trace logged] in *.
  2: { eexists _, (exists_ (fs w6) output_dir), "". split_and!.
       - by rewrite Ht11, Ht9, Ht6, Ht3, <-!app_assoc.
       - by eexists.
       - unfold script, calls. cbn [app].
         destruct (exists_ _ _); cbn [app]; by eexists.
       - discriminate.
       - intros _. split; [discriminate|exact Habs11]. }
  apply bind_cases in H as [(? & w12 & ->%emit_Ok & H)|(? & []%emit_not_Raise & _)].
  apply bind_cases in H as [(p & w13 & Hmv & H)|(e & Hmv & ->)];
    pose proof (runs_on_fs_trace _ _ _ _ (runs_on_fs_move _ _) Hmv) as Ht13;
    cbn [fs trace logged] in *.
  2: { apply shutil_move_Raise in Hmv; [|discriminate|exact Habs11].
       eexists _, (exists_ (fs w6) output_dir), "". split_and!.
       - by rewrite Ht13, Ht11, Ht9, Ht6, Ht3, <-!app_assoc.
       - by eexists.
       - unfold script, calls. cbn [app].
         destruct (exists_ _ _); cbn [app]; by eexists.
       - discriminate.
       - intros _. split; [discriminate|exact Hmv]. }
  apply bind_cases in H as [(? & w14 & ->%emit_Ok & H)|(? & []%emit_not_Raise & _)].
  apply bind_cases in H as [(tot & w15 & [= <- <-] & H)|(? & [=] & _)].
  apply bind_cases in H as [(? & w16 & ->%emit_Ok & H)|(? & []%emit_not_Raise & _)].
  cbn [fs trace logged] in *.
  match type of H with
  | context [format_megabytes ?x] => destruct (format_megabytes x) as [mb|] eqn:Hmb
  end.
  - unfold print, emit in H. injection H as <- <-. cbn [fs trace logged].
    eexists _, (exists_ (fs w6) output_dir), mb. split_and!.
    + by rewrite Ht13, Ht11, Ht9, Ht6, Ht3, <-!app_assoc.
    + by eexists.
    + unfold script, calls. cbn [app]. destruct (exists_ _ _); cbn [app]; by eexists.
    + intros _. unfold script, calls. cbn [app]. by destruct (exists_ _ _).
    + destruct (exists_ _ _); cbn; intros [|]; discriminate.
  - unfold raise in H. injection H as <- <-. cbn [fs trace logged].
    eexists _, (exists_ (fs w6) output_dir), "". split_and!.
    + by rewrite Ht13, Ht11, Ht9, Ht6, Ht3, <-!app_assoc.
    + by eexists.
    + unfold script, calls. cbn [app]. destruct (exists_ _ _); cbn [app]; by eexists.
    + discriminate.
    + destruct (exists_ _ _); cbn; intros [|]; discriminate.
Qed.

(** ** Trees without links *)

Lemma counted_link_free r n : ∀ here,
  link_free n = true → counted r here n = regular_bytes n.
Proof.
  induction n as [s|t|m IH] using node_tree_ind; intros here; [done|done|].
  cbn [link_free counted regular_bytes].
  induction m as [|c n' m Hc Hfirst IHm] using map_first_key_ind; [done|].
  rewrite !map_fold_insert_first_key by done.
  intros [Hn' Hm]%andb_true_iff. f_equal.
  - apply (IH c n'); [apply lookup_insert_eq|done].
  - apply IHm; [|done]. intros c' n'' Hc'. apply (IH c' n'').
    rewrite lookup_insert_ne; [done|]. intros ->. congruence.
Qed.


(** C4.  The calls of every run are a beginning of
    [script], and all of it when the run returns: the framework loads
    and exports, then [output_dir] is tested and removed if it exists,
    only then its parent is made, and then comes the move. *)
Theorem C4_order model_name output_dir w :
  ∃ t removed mb,
    trace (export_model YOLO Model_export model_name output_dir w).2 = trace w ++ t ∧
    t `prefix_of` script model_name output_dir removed mb ∧
    ((export_model YOLO Model_export model_name output_dir w).1 = Ok tt →
     t = script model_name output_dir removed mb).
Proof.
  destruct (export_model YOLO Model_export model_name output_dir w) as [r w'] eqn:H.
  apply run_outcome in H as (t & removed & mb & Ht & _ & Hpre & Hok & _).
  by exists t, removed, mb.
Qed.

(** C5.  When the framework fails to load the model, the run ends with
    the framework's error right there: it has printed one line and
    called the loader, and the file system is as the loader left it. *)
Theorem C5_load_failure model_name output_dir w e fs1 :
  YOLO (model_name +:+ ".pt") (fs w) = (inl e, fs1) →
  export_model YOLO Model_export model_name output_dir w =
  (Raise e,
   mkWorld fs1 (trace w ++ [ Printed ("Loading " +:+ model_name +:+ "...");
                             Call_YOLO (model_name +:+ ".pt") ])).
Proof.
  intros H. unfold export_model, bind, print, emit, external. cbn [fs trace].
  rewrite H. by rewrite <-app_assoc.
Qed.

End Run.

(** ** Changes of the tree, composed *)

Lemma alter_at_dir_cons f c r m :
  alter_at f (c :: r) (Dir m) = Dir (partial_alter (on_entry f r) c m).
Proof. by destruct r. Qed.

Lemma alter_at_not_dir f c r n :
  (∀ m, n ≠ Dir m) → alter_at f (c :: r) n = n.
Proof. intros H. destruct n as [|m|]; try done. by destruct (H m). Qed.

Lemma alter_at_commute f g l1 l2 n :
  apart l1 l2 →
  alter_at f l1 (alter_at g l2 n) = alter_at g l2 (alter_at f l1 n).
Proof.
  intros (p & a & r1 & b & r2 & -> & -> & Hab)%apart_split.
  revert n. induction p as [|c p IH]; intros n; cbn [app].
  - destruct n as [s|m|t]; try by rewrite !alter_at_not_dir.
    rewrite !alter_at_dir_cons. f_equal. by apply partial_alter_partial_alter_ne.
  - destruct n as [s|m|t]; try by rewrite !alter_at_not_dir.
    rewrite !alter_at_dir_cons. f_equal.
    rewrite !partial_alter_partial_alter_eq. apply partial_alter_ext.
    intros [n'|] _; [|by destruct p].
    destruct p; cbn [on_entry app]; cbn; f_equal; apply IH.
Qed.

Lemma alter_at_compose f g l n :
  l ≠ [] → alter_at g l (alter_at f l n) = alter_at (g ∘ f) l n.
Proof.
  revert n. induction l as [|c l IH]; intros n Hl; [done|].
  destruct n as [s|m|t]; try by rewrite !alter_at_not_dir.
  rewrite !alter_at_dir_cons. f_equal.
  rewrite partial_alter_partial_alter_eq. apply partial_alter_ext.
  intros x _. destruct l as [|c' l]; [done|].
  destruct x as [n'|]; cbn; [|done]. f_equal. by apply IH.
Qed.

Lemma alter_at_same f l n :
  l ≠ [] → f (find n l) = find n l → alter_at f l n = n.
Proof.
  revert n. induction l as [|c l IH]; intros n Hl Hf; [done|].
  destruct n as [s|m|t]; try by rewrite !alter_at_not_dir.
  rewrite alter_at_dir_cons. f_equal. rewrite find_cons in Hf.
  apply partial_alter_id.
  destruct l as [|c' l]; cbn [on_entry].
  - destruct (m !! c) as [n'|]; cbn in Hf; by rewrite Hf.
  - destruct (m !! c) as [n'|]; cbn in *; [|done]. f_equal. by apply IH.
Qed.

(** Writing an entry where none was and taking it away again, and
    taking an entry away and writing it back. *)
Lemma remove_put_absent l x n :
  l ≠ [] → find n l = None → remove_at l (put_at l x n) = n.
Proof.
  intros Hl Hn. unfold remove_at, put_at. rewrite alter_at_compose by done.
  apply alter_at_same; [done|]. by rewrite Hn.
Qed.

Lemma put_remove_present l x n :
  l ≠ [] → find n l = Some x → put_at l x (remove_at l n) = n.
Proof.
  intros Hl Hn. unfold remove_at, put_at. rewrite alter_at_compose by done.
  apply alter_at_same; [done|]. by rewrite Hn.
Qed.

(** ** Running forward *)

Lemma bind_run {A B} (m : M A) (k : A → M B) w a w1 :
  m w = (Ok a, w1) → bind m k w = k a w1.
Proof. unfold bind. by intros ->. Qed.

Lemma os_rename_run src dst fs0 n pm :
  find (root fs0) (locate fs0 src) = Some n →
  parts src ≠ [] → parts dst ≠ [] →
  find (root fs0) (removelast (locate fs0 dst)) = Some (Dir pm) →
  apart (locate fs0 src) (locate fs0 dst) →
  find (root fs0) (locate fs0 dst) = None →
  os_rename_fs src dst fs0 =
  inr (set_root fs0
         (put_at (locate fs0 dst) n (remove_at (locate fs0 src) (root fs0)))).
Proof.
  intros Hs Hps Hpd Hpar [Hsd Hds] Hd. unfold os_rename_fs.
  rewrite Hs, Hpar, Hd.
  destruct (parts src); [done|]. destruct (parts dst); [done|].
  destruct (decide _) as [Heq|_]; [by rewrite Heq in Hsd|].
  destruct (decide _) as [|_]; [done|]. by destruct n.
Qed.

Lemma shutil_move_run src dst w fs' :
  stat (fs w) dst = None →
  os_rename_fs src dst (fs w) = inr fs' →
  shutil_move src dst w = (Ok dst, mkWorld fs' (trace w)).
Proof.
  intros Hst Hren. unfold shutil_move, bind at 1, Path_is_dir.
  rewrite ask_run, (stat_none_is_dir _ _ Hst).
  unfold bind, move_to, try_except, os_rename, syscall. by rewrite Hren.
Qed.

Lemma external_run {A} (call : filesystem → (exn + A) * filesystem) w a fs' :
  call (fs w) = (inr a, fs') → external call w = (Ok a, mkWorld fs' (trace w)).
Proof. unfold external. by intros ->. Qed.

Lemma removal_run output_dir w m :
  parts output_dir ≠ [] → lstat (fs w) output_dir = Some (Dir m) →
  (emit (Call_rmtree output_dir) ;; shutil_rmtree output_dir) w =
  (Ok tt,
   mkWorld (set_root (fs w) (remove_at (locate (fs w) output_dir) (root (fs w))))
           (trace w ++ [Call_rmtree output_dir])).
Proof.
  intros Hp Hl. erewrite bind_run by apply emit_run.
  by erewrite rmtree_run.
Qed.

Lemma Path_mkdir_found p w m :
  find (root (fs w)) (locate (fs w) p) = Some (Dir m) →
  Path_mkdir p w = (Ok tt, w).
Proof.
  intros H. unfold Path_mkdir. eapply mkdir_parents_found.
  rewrite rev_involutive. destruct p. exact H.
Qed.

Lemma find_put_dir_inv l c x r n :
  find (put_at (l ++ [c]) x r) (l ++ [c]) = Some n →
  n = x ∧ ∃ d, find r l = Some (Dir d).
Proof.
  unfold put_at. rewrite (find_alter_below _ l c []).
  destruct (find r l) as [[|d|]|]; try done. cbn. intros [= <-]. eauto.
Qed.


(** ** Runs that fail *)

Lemma bind_raise {A B} (m : M A) (k : A → M B) w e w1 :
  m w = (Raise e, w1) → bind m k w = (Raise e, w1).
Proof. unfold bind. by intros ->. Qed.

Lemma external_raise {A} (call : filesystem → (exn + A) * filesystem) w e fs' :
  call (fs w) = (inl e, fs') → external call w = (Raise e, mkWorld fs' (trace w)).
Proof. unfold external. by intros ->. Qed.

Lemma find_remove_none l x n : find n x = None → find (remove_at l n) x = None.
Proof.
  intros H. destruct (decide (l `prefix_of` x)) as [[k ->]|Hlx].
  - destruct l as [|c l]; [|by apply find_remove_below].
    exact H.
  - destruct (decide (x `prefix_of` l)) as [[k ->]|Hxl].
    + destruct k as [|c k]; [by rewrite app_nil_r in Hlx|].
      unfold remove_at. rewrite find_alter_above by done. by rewrite H.
    + rewrite find_remove_apart; done.
Qed.

Lemma exists_lstat fs0 p :
  exists_ fs0 p = true → ∃ n, lstat fs0 p = Some n.
Proof.
  unfold exists_, stat, lstat. destruct (find (root fs0) (locate fs0 p)) eqn:H; [eauto|].
  by rewrite follow_not_found.
Qed.

Lemma exists_absent fs0 p : lstat fs0 p = None → exists_ fs0 p = false.
Proof. unfold exists_, stat, lstat. intros H. by rewrite follow_not_found. Qed.


Lemma walk_to_through_file n x s k :
  find n x = Some (File s) → k ≠ [] → walk_to n (x ++ k) = NotDir.
Proof.
  revert n. induction x as [|a x IH]; intros n H Hk.
  - rewrite find_nil in H. injection H as ->. by destruct k.
  - rewrite find_cons in H. destruct n as [|m|]; try done. cbn.
    destruct (m !! a) as [n'|]; [|done]. by apply IH.
Qed.

Lemma ret_run {A} (a : A) w : ret a w = (Ok a, w).
Proof. done. Qed.

(** [shutil.move] of what is not there, onto what is not there. *)
Lemma shutil_move_missing src dst w :
  lstat (fs w) src = None → stat (fs w) dst = None →
  shutil_move src dst w = (Raise FileNotFoundError, w).
Proof.
  intros Hs Hd. unfold shutil_move, Path_is_dir.
  erewrite bind_run by apply ask_run.
  rewrite (stat_none_is_dir _ _ Hd). apply bind_raise.
  unfold move_to, try_except, os_rename, syscall, os_rename_fs.
  unfold lstat in Hs. rewrite Hs. cbn [is_OSError].
  unfold bind, ask, lstat. by rewrite Hs.
Qed.

(** [Path.mkdir] below a regular file, or onto one. *)
Lemma Path_mkdir_blocked p w x s :
  x `prefix_of` locate (fs w) p →
  find (root (fs w)) x = Some (File s) →
  Path_mkdir p w =
  (Raise (if decide (x = locate (fs w) p) then FileExistsError
          else NotADirectoryError), w).
Proof.
  intros [k Hk] Hx. unfold Path_mkdir.
  assert (∀ rp, mkPath (absolute p) (rev rp) = p →
    mkdir_parents (absolute p) rp w =
    (Raise (if decide (x = locate (fs w) p) then FileExistsError
            else NotADirectoryError), w)) as Hgen.
  { intros rp Hp.
    assert (os_mkdir p w =
            (Raise (if decide (x = locate (fs w) p) then FileExistsError
                    else NotADirectoryError), w)
            ∧ is_dir (fs w) p = false) as [Hmk Hnd].
    { unfold os_mkdir, syscall, os_create, is_dir, stat. rewrite Hk.
      destruct k as [|c k].
      - rewrite app_nil_r. apply find_walk_to in Hx as Hw. rewrite Hw.
        rewrite (follow_found _ _ _ (File s)) by done.
        by rewrite decide_True.
      - rewrite (walk_to_through_file _ _ s) by done.
        rewrite follow_not_found.
        + rewrite decide_False; [done|]. intros Heq.
          apply (f_equal length) in Heq. rewrite length_app in Heq. cbn in Heq. lia.
        + unfold find. by rewrite (walk_to_through_file _ _ s). }
    destruct rp as [|c rp]; cbn [mkdir_parents]; rewrite Hp;
      unfold try_except; rewrite Hmk;
      (destruct (decide (x = locate (fs w) p)); cbn [is_OSError];
       (rewrite decide_False by done);
       unfold bind, Path_is_dir, ask; by rewrite Hnd). }
  apply Hgen. rewrite rev_involutive. by destruct p.
Qed.

(** [os.makedirs] onto what is there. *)
Lemma makedirs_found p w n m :
  parts p ≠ [] →
  find (root (fs w)) (locate (fs w) p) = Some n →
  find (root (fs w)) (locate (fs w) (parent p)) = Some (Dir m) →
  os_makedirs p w = (Raise FileExistsError, w).
Proof.
  intros Hp Hn Hpar. unfold os_makedirs.
  destruct (snoc_cases (parts p)) as [?|(ps & c & Hps)]; [done|].
  rewrite Hps, rev_unit, makedirs_rev_cons.
  assert (makedirs_head (absolute p) (rev ps) w = (Ok tt, w)) as Hhead.
  { unfold makedirs_head.
    destruct (absolute p || bool_decide (rev ps ≠ [])); [|done].
    unfold Path_exists. erewrite bind_run by apply ask_run.
    rewrite (exists_found _ _ m); [done|].
    rewrite rev_involutive. unfold parent in Hpar.
    by rewrite Hps, removelast_snoc in Hpar. }
  erewrite bind_run by exact Hhead.
  apply (os_mkdir_found _ _ n). cbn [rev]. rewrite rev_involutive, <-Hps.
  by destruct p.
Qed.


(** Where [output_dir] is a directory and the export is not to be found
    once that directory is removed, the old directory is lost and the
    move fails. *)
Lemma place_loses_export model_name output_dir w d :
  parts output_dir ≠ [] →
  lstat (fs w) output_dir = Some (Dir d) →
  find (remove_at (locate (fs w) output_dir) (root (fs w)))
       (locate (fs w) (Path_of_name (model_name +:+ "_web_model"))) = None →
  move_into_place model_name output_dir w =
  (Raise FileNotFoundError,
   mkWorld (set_root (fs w) (remove_at (locate (fs w) output_dir) (root (fs w))))
     (trace w ++ [Call_exists output_dir; Call_rmtree output_dir;
                  Call_mkdir (parent output_dir);
                  Call_move (Path_of_name (model_name +:+ "_web_model"))
                    output_dir])).
Proof.
  intros Hp Hd HE. unfold move_into_place.
  pose proof (locate_nonempty (fs w) _ Hp) as Hne.
  erewrite bind_run by apply emit_run.
  unfold Path_exists. erewrite bind_run by apply ask_run.
  cbn [fs logged]. rewrite (exists_found _ _ d) by exact Hd.
  erewrite bind_run by (apply (removal_run _ _ d); [exact Hp|exact Hd]).
  cbn [fs trace logged].
  erewrite bind_run by apply emit_run.
  destruct (find_parent_dir _ _ _ Hne Hd) as [dp Hdp].
  destruct (find_alter_dir (λ _, None) _ _ _ _
              (removelast_not_prefix _ Hne) Hdp) as [dp' Hdp'].
  erewrite bind_run;
    [|apply (Path_mkdir_found _ _ dp'); cbn [fs logged];
      rewrite locate_parent by done; rewrite locate_set_root; exact Hdp'].
  erewrite bind_run by apply emit_run.
  erewrite bind_raise.
  2: { apply shutil_move_missing; cbn [fs logged].
       - unfold lstat. rewrite locate_set_root. exact HE.
       - unfold stat. rewrite locate_set_root. cbn [root set_root].
         rewrite follow_not_found; [reflexivity|]. by apply find_remove. }
  unfold logged. cbn [fs trace]. rewrite <-!app_assoc. reflexivity.
Qed.

Section Failures.

Context {Model : Type}.
Variable YOLO : string → filesystem → (exn + Model) * filesystem.
Variable Model_export : Model → string → filesystem → (exn + unit) * filesystem.

(** Once the framework has loaded and exported, the run goes on with
    [move_into_place]. *)
Lemma run_exported model_name output_dir w model fs1 fs2 :
  YOLO (model_name +:+ ".pt") (fs w) = (inr model, fs1) →
  Model_export model "tfjs" fs1 = (inr tt, fs2) →
  export_model YOLO Model_export model_name output_dir w =
  move_into_place model_name output_dir
    (mkWorld fs2 (trace w ++ framework_calls model_name)).
Proof.
  intros Hl He. unfold export_model.
  erewrite bind_run by apply emit_run.
  erewrite bind_run by apply emit_run.
  erewrite bind_run by (apply external_run; exact Hl).
  erewrite bind_run by apply emit_run.
  erewrite bind_run by apply emit_run.
  erewrite bind_run by (apply external_run; exact He).
  unfold logged, framework_calls. cbn [fs trace]. by rewrite <-!app_assoc.
Qed.

(** X1.  When the framework's export fails, the run ends with that error
    right there: nothing has been tested, removed, made or moved, and
    the file system is as the framework left it. *)
Theorem export_failure model_name output_dir w model fs1 e fs2 :
  YOLO (model_name +:+ ".pt") (fs w) = (inr model, fs1) →
  Model_export model "tfjs" fs1 = (inl e, fs2) →
  export_model YOLO Model_export model_name output_dir w =
  (Raise e, mkWorld fs2 (trace w ++ framework_calls model_name)).
Proof.
  intros Hl He. unfold export_model.
  erewrite bind_run by apply emit_run.
  erewrite bind_run by apply emit_run.
  erewrite bind_run by (apply external_run; exact Hl).
  erewrite bind_run by apply emit_run.
  erewrite bind_run by apply emit_run.
  erewrite bind_raise by (apply external_raise; exact He).
  unfold logged, framework_calls. cbn [fs trace]. by rewrite <-!app_assoc.
Qed.

(** X2.  An [output_dir] that exists and is no directory proper (a regular
    file, or a symbolic link that leads somewhere) is not replaced:
    [shutil.rmtree] refuses it, the run ends with that error, and the
    file system stays as the framework left it, the export in the
    working directory included. *)
Theorem output_not_a_directory model_name output_dir w model fs1 fs2 :
  YOLO (model_name +:+ ".pt") (fs w) = (inr model, fs1) →
  Model_export model "tfjs" fs1 = (inr tt, fs2) →
  exists_ fs2 output_dir = true →
  (∀ d, lstat fs2 output_dir ≠ Some (Dir d)) →
  export_model YOLO Model_export model_name output_dir w =
  (Raise (rmtree_refusal (lstat fs2 output_dir)),
   mkWorld fs2 (trace w ++ framework_calls model_name
                  ++ [Call_exists output_dir; Call_rmtree output_dir])).
Proof.
  intros Hl He Hex Hnd. rewrite (run_exported _ _ _ _ _ _ Hl He).
  unfold move_into_place.
  erewrite bind_run by apply emit_run.
  unfold Path_exists. erewrite bind_run by apply ask_run.
  cbn [fs logged]. rewrite Hex.
  destruct (exists_lstat _ _ Hex) as [n Hn]. rewrite Hn in Hnd |- *.
  apply bind_raise. erewrite bind_run by apply emit_run.
  unfold shutil_rmtree. erewrite bind_run by apply ask_run.
  cbn [fs logged trace]. apply find_walk_to in Hn. rewrite Hn.
  unfold raise, logged. cbn [fs trace].
  destruct n as [s|d|t]; [|exfalso; exact (Hnd d eq_refl)|]; cbn [rmtree_refusal];
    rewrite <-!app_assoc; reflexivity.
Qed.

(** X3.  An [output_dir] without parts ([.] or [/]) that is a directory is
    emptied, the export in it included, and then the run ends with the
    error of [os.rmdir]. *)
Theorem output_without_parts model_name output_dir w model fs1 fs2 d :
  YOLO (model_name +:+ ".pt") (fs w) = (inr model, fs1) →
  Model_export model "tfjs" fs1 = (inr tt, fs2) →
  parts output_dir = [] →
  lstat fs2 output_dir = Some (Dir d) →
  ∃ msg w',
    export_model YOLO Model_export model_name output_dir w
    = (Raise (OSError msg), w') ∧
    lstat (fs w') output_dir = Some (Dir ∅) ∧
    trace w' = trace w ++ framework_calls model_name
                 ++ [Call_exists output_dir; Call_rmtree output_dir].
Proof.
  intros Hl He Hp Hd. rewrite (run_exported _ _ _ _ _ _ Hl He).
  unfold move_into_place.
  erewrite bind_run by apply emit_run.
  unfold Path_exists. erewrite bind_run by apply ask_run.
  cbn [fs logged]. rewrite (exists_found _ _ d) by exact Hd.
  exists "EINVAL",
    (mkWorld (set_root fs2 (put_at (locate fs2 output_dir) (Dir ∅) (root fs2)))
       (trace w ++ framework_calls model_name
          ++ [Call_exists output_dir; Call_rmtree output_dir])).
  split_and!; [| |done].
  - apply bind_raise. erewrite bind_run by apply emit_run.
    unfold shutil_rmtree. erewrite bind_run by apply ask_run.
    cbn [fs logged trace]. apply find_walk_to in Hd. rewrite Hd, Hp.
    unfold syscall, bind, raise, logged. cbn [fs trace].
    rewrite <-!app_assoc. reflexivity.
  - cbn [fs]. unfold lstat in *. rewrite locate_set_root. cbn [root set_root].
    destruct (locate fs2 output_dir) as [|c l] eqn:Hloc; [reflexivity|].
    apply find_put; [done|]. by eapply find_parent_dir.
Qed.


(** X4.  When the framework has left nothing under the name
    [<model_name>_web_model] in the working directory, the run does
    not return; and where [output_dir] was a directory, that directory
    is removed all the same before the move fails. *)
Theorem export_missing model_name output_dir w model fs1 fs2 :
  YOLO (model_name +:+ ".pt") (fs w) = (inr model, fs1) →
  Model_export model "tfjs" fs1 = (inr tt, fs2) →
  plain_run model_name output_dir fs2 = true →
  lstat fs2 (Path_of_name (model_name +:+ "_web_model")) = None →
  (∃ e w', export_model YOLO Model_export model_name output_dir w = (Raise e, w')) ∧
  (∀ d, parts output_dir ≠ [] → lstat fs2 output_dir = Some (Dir d) →
     ∃ w', export_model YOLO Model_export model_name output_dir w
           = (Raise FileNotFoundError, w') ∧
           fs w' = set_root fs2 (remove_at (locate fs2 output_dir) (root fs2)) ∧
           lstat (fs w') output_dir = None).
Proof.
  intros Hl He _ HE. split.
  - destruct (export_model YOLO Model_export model_name output_dir w)
      as [[u|e] w'] eqn:H; [|eauto].
    apply run_Ok in H as (model' & fs1' & fs2' & n & mb & Hl' & He' & _ & _ & Hn & _).
    rewrite Hl in Hl'. injection Hl' as <- <-.
    rewrite He in He'. injection He' as <-.
    rewrite HE in Hn. discriminate Hn.
  - intros d Hp Hd. rewrite (run_exported _ _ _ _ _ _ Hl He).
    eexists. split; [apply (place_loses_export _ _ _ d); [exact Hp|exact Hd|]|].
    + cbn [fs]. by apply find_remove_none.
    + cbn [fs]. split; [reflexivity|]. unfold lstat. rewrite locate_set_root.
      apply find_remove. by apply locate_nonempty.
Qed.

(** X5.  An [output_dir] that is the export directory itself, or a directory
    above it, is removed with the export in it, and the move fails:
    the run destroys what the framework has just written. *)
Theorem output_holds_export model_name output_dir w model fs1 fs2 d :
  YOLO (model_name +:+ ".pt") (fs w) = (inr model, fs1) →
  Model_export model "tfjs" fs1 = (inr tt, fs2) →
  plain_run model_name output_dir fs2 = true →
  parts output_dir ≠ [] →
  lstat fs2 output_dir = Some (Dir d) →
  locate fs2 output_dir
    `prefix_of` locate fs2 (Path_of_name (model_name +:+ "_web_model")) →
  ∃ w', export_model YOLO Model_export model_name output_dir w
        = (Raise FileNotFoundError, w') ∧
        lstat (fs w') (Path_of_name (model_name +:+ "_web_model")) = None ∧
        lstat (fs w') output_dir = None.
Proof.
  intros Hl He _ Hp Hd [k Hk]. rewrite (run_exported _ _ _ _ _ _ Hl He).
  pose proof (locate_nonempty fs2 _ Hp) as Hne.
  eexists. split; [apply (place_loses_export _ _ _ d); [exact Hp|exact Hd|]|].
  - cbn [fs]. rewrite Hk. by apply find_remove_below.
  - cbn [fs]. unfold lstat. rewrite !locate_set_root. cbn [root set_root]. split.
    + rewrite Hk. by apply find_remove_below.
    + by apply find_remove.
Qed.

(** X6.  A regular file on the way to [output_dir] stops the run where the
    parent directory is made: nothing has changed by then, and the
    export stays in the working directory. *)
Theorem parent_blocked model_name output_dir w model fs1 fs2 x s :
  YOLO (model_name +:+ ".pt") (fs w) = (inr model, fs1) →
  Model_export model "tfjs" fs1 = (inr tt, fs2) →
  parts output_dir ≠ [] →
  x `prefix_of` locate fs2 (parent output_dir) →
  find (root fs2) x = Some (File s) →
  export_model YOLO Model_export model_name output_dir w =
  (Raise (if decide (x = locate fs2 (parent output_dir)) then FileExistsError
          else NotADirectoryError),
   mkWorld fs2 (trace w ++ framework_calls model_name
                  ++ [Call_exists output_dir; Call_mkdir (parent output_dir)])).
Proof.
  intros Hl He Hp Hx Hs. rewrite (run_exported _ _ _ _ _ _ Hl He).
  unfold move_into_place.
  erewrite bind_run by apply emit_run.
  unfold Path_exists. erewrite bind_run by apply ask_run.
  cbn [fs logged].
  assert (lstat fs2 output_dir = None) as Habs.
  { unfold lstat. pose proof (locate_nonempty fs2 _ Hp) as Hne.
    rewrite locate_parent in Hx by done. destruct Hx as [k Hk].
    rewrite (app_removelast_last "" Hne), Hk, <-app_assoc.
    unfold find. by rewrite (walk_to_through_file _ _ s) by (by destruct k). }
  rewrite (exists_absent _ _ Habs).
  erewrite bind_run by apply ret_run.
  erewrite bind_run by apply emit_run.
  erewrite bind_raise; [|by apply (Path_mkdir_blocked _ _ x s)].
  unfold logged. cbn [fs trace]. rewrite <-!app_assoc. reflexivity.
Qed.

(** X7.  A symbolic link at [output_dir] that leads nowhere is not replaced
    by the exported directory: the move fails, nothing has changed,
    and the export stays in the working directory. *)
Theorem dangling_link_output model_name output_dir w model fs1 fs2 t p :
  YOLO (model_name +:+ ".pt") (fs w) = (inr model, fs1) →
  Model_export model "tfjs" fs1 = (inr tt, fs2) →
  plain_run model_name output_dir fs2 = true →
  parts output_dir ≠ [] →
  lstat fs2 output_dir = Some (Link t) →
  exists_ fs2 output_dir = false →
  lstat fs2 (Path_of_name (model_name +:+ "_web_model")) = Some (Dir p) →
  ¬ locate fs2 (Path_of_name (model_name +:+ "_web_model"))
      `prefix_of` locate fs2 output_dir →
  export_model YOLO Model_export model_name output_dir w =
  (Raise FileExistsError,
   mkWorld fs2 (trace w ++ framework_calls model_name
                  ++ [Call_exists output_dir; Call_mkdir (parent output_dir);
                      Call_move (Path_of_name (model_name +:+ "_web_model"))
                        output_dir])).
Proof.
  intros Hl He _ Hp Hlink Hex HE Hpre. rewrite (run_exported _ _ _ _ _ _ Hl He).
  set (E := Path_of_name (model_name +:+ "_web_model")) in *.
  pose proof (locate_nonempty fs2 _ Hp) as Hne.
  destruct (find_parent_dir _ _ _ Hne Hlink) as [dp Hdp].
  unfold move_into_place. fold E.
  erewrite bind_run by apply emit_run.
  unfold Path_exists. erewrite bind_run by apply ask_run.
  cbn [fs logged]. rewrite Hex.
  erewrite bind_run by apply ret_run.
  erewrite bind_run by apply emit_run.
  erewrite bind_run;
    [|apply (Path_mkdir_found _ _ dp); cbn [fs logged];
      rewrite locate_parent by done; exact Hdp].
  erewrite bind_run by apply emit_run.
  erewrite bind_raise.
  2: {
     set (w1 := logged _ _).
     assert (fs w1 = fs2) as Hfs by reflexivity.
     unfold shutil_move, Path_is_dir. erewrite bind_run by apply ask_run.
     assert (is_dir (fs w1) output_dir = false) as ->.
     { rewrite Hfs. unfold exists_ in Hex. unfold is_dir.
       by destruct (stat fs2 output_dir). }
     apply bind_raise. unfold move_to, try_except.
     assert (os_rename E output_dir w1 = (Raise NotADirectoryError, w1)) as ->.
     { unfold os_rename, syscall, os_rename_fs. rewrite Hfs.
       unfold lstat in HE, Hlink. rewrite HE, Hdp, Hlink.
       destruct (parts output_dir) as [|c ps] eqn:Hparts; [done|].
       cbn [parts E Path_of_name].
       rewrite decide_False by (intros Heq; rewrite Heq, Hlink in HE; discriminate HE).
       by rewrite decide_False. }
     cbn [is_OSError].
     erewrite bind_run by apply ask_run. rewrite Hfs, HE.
     erewrite bind_run by apply ask_run. rewrite Hfs.
     unfold destinsrc. rewrite bool_decide_eq_false_2 by exact Hpre.
     apply bind_raise. unfold shutil_copytree. apply bind_raise.
     apply (makedirs_found _ _ (Link t) dp); [done|by rewrite Hfs|].
     rewrite Hfs, locate_parent by done. exact Hdp. }
  unfold logged. cbn [fs trace]. rewrite <-!app_assoc. reflexivity.
Qed.

(** X8.  After a run that returns, the export is no longer in the working
    directory: it has been moved, not copied (unless [output_dir] is
    the very place where the framework put it). *)
Theorem export_moved model_name output_dir w model fs1 fs2 u w' :
  YOLO (model_name +:+ ".pt") (fs w) = (inr model, fs1) →
  Model_export model "tfjs" fs1 = (inr tt, fs2) →
  plain_run model_name output_dir fs2 = true →
  export_model YOLO Model_export model_name output_dir w = (Ok u, w') →
  lstat (fs w') (Path_of_name (model_name +:+ "_web_model")) = None ∨
  locate (fs w') (Path_of_name (model_name +:+ "_web_model"))
  = locate (fs w') output_dir.
Proof.
  intros _ _ _ (model' & fs1' & fs2' & n & mb & _ & _ & Hc & _ & _ & _ & Hrel & _)%run_Ok.
  destruct Hrel as [[Heq _]|[_ Hgone]]; [right|by left].
  by rewrite !(locate_cwd fs2' (fs w')).
Qed.

End Failures.

(** ** What a run leaves alone *)

Lemma prefix_comparable {A} (x y l : list A) :
  x `prefix_of` l → y `prefix_of` l → x `prefix_of` y ∨ y `prefix_of` x.
Proof.
  intros [k1 ->] [k2 H]. revert y H.
  induction x as [|a x IH]; intros y H; [left; apply prefix_nil|].
  destruct y as [|b y]; [right; apply prefix_nil|].
  injection H as <- H. destruct (IH _ H) as [?|?]; [left|right];
    by apply prefix_cons.
Qed.

Lemma apart_below (x l0 l : location) :
  apart x l0 → l0 `prefix_of` l → apart l x.
Proof.
  intros [H1 H2] Hl. split.
  - intros Hlx. apply H2. by etrans.
  - intros Hxl. destruct (prefix_comparable _ _ _ Hxl Hl); auto.
Qed.

Lemma not_prefix_near (x l0 l : location) :
  apart x l0 → l `prefix_of` l0 ∨ l0 `prefix_of` l → ¬ x `prefix_of` l.
Proof.
  intros [H1 H2] [Hl|Hl] Hx.
  - apply H1. by etrans.
  - destruct (prefix_comparable _ _ _ Hx Hl); auto.
Qed.

Lemma locate_parent_prefix fs0 p : locate fs0 (parent p) `prefix_of` locate fs0 p.
Proof.
  destruct (snoc_cases (parts p)) as [Hp|(ps & c & Hp)].
  - unfold locate, parent. cbn. by rewrite Hp.
  - unfold locate, parent. cbn. rewrite Hp, removelast_snoc.
    destruct (absolute p); [by exists [c]|].
    exists [c]. by rewrite app_assoc.
Qed.

Section Frame.

Variable anchor : filesystem.
Variables O E : Path.

Local Abbreviation R := (same_apart (cwd anchor) (locate anchor O) (locate anchor E)).

(** The paths at or below [O] or [E]. *)
Local Abbreviation touched p :=
  (locate anchor O `prefix_of` locate anchor p ∨
   locate anchor E `prefix_of` locate anchor p).

Lemma same_apart_refl fs0 : R fs0 fs0.
Proof. by intros Hc. Qed.

Lemma same_apart_trans fs0 fs1 fs2 : R fs0 fs1 → R fs1 fs2 → R fs0 fs2.
Proof.
  intros H1 H2 Hc. destruct (H1 Hc) as [Hc1 Hf1]. destruct (H2 Hc1) as [Hc2 Hf2].
  split; [done|]. intros x Hx1 Hx2. by rewrite Hf2, Hf1.
Qed.

Lemma within_emit e : within R (emit e).
Proof. intros w r w' [= <- <-]. apply same_apart_refl. Qed.

Lemma touched_here fs0 p :
  cwd fs0 = cwd anchor → touched p →
  ∀ x, apart x (locate anchor O) → apart x (locate anchor E) →
       apart (locate fs0 p) x.
Proof.
  intros Hc Hp x Hx1 Hx2. rewrite (locate_cwd anchor fs0) by done.
  destruct Hp as [Hp|Hp];
    [exact (apart_below _ _ _ Hx1 Hp)|exact (apart_below _ _ _ Hx2 Hp)].
Qed.

Lemma frame_alter f p fs0 :
  touched p → R fs0 (set_root fs0 (alter_at f (locate fs0 p) (root fs0))).
Proof.
  intros Hp Hc. split; [done|]. intros x Hx1 Hx2. cbn.
  apply find_alter_apart. by apply touched_here.
Qed.

Lemma frame_unchanged_off p fs0 fs1 :
  touched p ∨ locate anchor p `prefix_of` locate anchor O →
  unchanged_off (locate fs0 p) fs0 fs1 → R fs0 fs1.
Proof.
  intros Hp [Hc1 Hu] Hc. split; [congruence|]. intros x Hx1 Hx2.
  apply Hu. rewrite (locate_cwd anchor fs0) by done.
  destruct Hp as [[Hp|Hp]|Hp].
  - eapply not_prefix_near; [exact Hx1|by right].
  - eapply not_prefix_near; [exact Hx2|by right].
  - eapply not_prefix_near; [exact Hx1|by left].
Qed.

Lemma within_rename src dst :
  touched src → touched dst → within R (os_rename src dst).
Proof.
  intros Hs Hd. apply within_syscall; [apply same_apart_refl|].
  intros fs0 fs1 H Hc.
  apply os_rename_inr in H as (Hcwd & _ & _ & n & _ & _ & [[_ ->]|[_ ->]]);
    [done|].
  split; [done|]. intros x Hx1 Hx2. cbn [root set_root].
  rewrite find_put_apart by (by apply touched_here).
  apply find_remove_apart. by apply touched_here.
Qed.

Lemma within_create n p :
  childless n → touched p ∨ locate anchor p `prefix_of` locate anchor O →
  within R (syscall (os_create n p)).
Proof.
  intros Hn Hp. apply within_syscall; [apply same_apart_refl|].
  intros fs0 fs1 H. eapply frame_unchanged_off; [exact Hp|].
  by apply (os_create_unchanged_off n).
Qed.

Lemma within_unlink p : touched p → within R (os_unlink p).
Proof.
  intros Hp. apply within_syscall; [apply same_apart_refl|].
  intros fs0 fs1 H. destruct (walk_to _ _) as [[| |]| |]; simplify_eq;
    by apply frame_alter.
Qed.

Lemma within_rmtree p : touched p → within R (shutil_rmtree p).
Proof.
  intros Hp. unfold shutil_rmtree.
  apply within_bind; [apply same_apart_trans|by apply within_ask, same_apart_refl|].
  intros [[| |]| |]; try (by apply within_raise, same_apart_refl).
  destruct (parts p).
  - apply within_bind; [apply same_apart_trans| |intros _; by apply within_raise, same_apart_refl].
    apply within_syscall; [apply same_apart_refl|].
    intros fs0 fs1 [= <-]. by apply frame_alter.
  - apply within_syscall; [apply same_apart_refl|].
    intros fs0 fs1 [= <-]. by apply frame_alter.
Qed.

Lemma within_makedirs p : touched p → within R (os_makedirs p).
Proof.
  intros Hp w r w' H. apply makedirs_frame in H as [_ H].
  eapply frame_unchanged_off; [left; exact Hp|].
  rewrite rev_involutive in H. by destruct p.
Qed.

Lemma within_mkdir_parent : within R (Path_mkdir (parent O)).
Proof.
  intros w r w' H. apply Path_mkdir_frame in H as [_ H].
  eapply frame_unchanged_off; [|exact H]. right. apply locate_parent_prefix.
Qed.

Lemma within_move_to src dst real_dst :
  touched src → touched real_dst → within R (move_to src dst real_dst).
Proof.
  intros Hs Hd. unfold move_to.
  apply within_try; [apply same_apart_trans|by apply within_rename|].
  intros e.
  apply within_bind; [apply same_apart_trans|by apply within_ask, same_apart_refl|].
  intros [[|m|t]|]; try (by apply within_raise, same_apart_refl).
  - apply within_bind; [apply same_apart_trans|by apply within_ask, same_apart_refl|].
    intros [|]; [by apply within_raise, same_apart_refl|].
    apply within_bind; [apply same_apart_trans| |intros _; by apply within_rmtree].
    unfold shutil_copytree.
    apply within_bind; [apply same_apart_trans|by apply within_makedirs|].
    intros _. apply within_syscall; [apply same_apart_refl|].
    intros fs0 fs1 H. destruct (lstat fs0 src); simplify_eq. by apply frame_alter.
  - apply within_bind; [apply same_apart_trans| |intros _; by apply within_unlink].
    apply within_create; [apply childless_link|by left].
Qed.

Lemma within_move : touched E → within R (shutil_move E O).
Proof.
  intros HE. assert (touched O) as HO by (left; done).
  assert (touched (joinpath O [basename E])) as HOE.
  { left. rewrite locate_joinpath. by apply prefix_app_r. }
  unfold shutil_move.
  apply within_bind; [apply same_apart_trans|by apply within_ask, same_apart_refl|].
  intros [|].
  - apply within_bind; [apply same_apart_trans|by apply within_ask, same_apart_refl|].
    intros [|].
    + apply within_bind; [apply same_apart_trans|by apply within_rename|].
      intros _. by apply within_ret, same_apart_refl.
    + apply within_bind; [apply same_apart_trans|by apply within_ask, same_apart_refl|].
      intros [|]; [by apply within_raise, same_apart_refl|].
      apply within_bind; [apply same_apart_trans|by apply within_move_to|].
      intros _. by apply within_ret, same_apart_refl.
  - apply within_bind; [apply same_apart_trans|by apply within_move_to|].
    intros _. by apply within_ret, same_apart_refl.
Qed.

(** Whatever [move_into_place] does, and however it ends, it changes
    nothing at the locations apart from [output_dir] and from the
    export directory. *)
Lemma within_move_into_place model_name :
  E = Path_of_name (model_name +:+ "_web_model") →
  within R (move_into_place model_name O).
Proof.
  intros HE. unfold move_into_place. rewrite <-HE.
  assert (touched E) as HtE by (right; done).
  assert (touched O) as HtO by (left; done).
  apply within_bind; [apply same_apart_trans|apply within_emit|intros _].
  apply within_bind; [apply same_apart_trans|by apply within_ask, same_apart_refl|].
  intros ex.
  apply within_bind; [apply same_apart_trans| |intros _].
  { destruct ex; [|by apply within_ret, same_apart_refl].
    apply within_bind; [apply same_apart_trans|apply within_emit|intros _].
    by apply within_rmtree. }
  apply within_bind; [apply same_apart_trans|apply within_emit|intros _].
  apply within_bind; [apply same_apart_trans|apply within_mkdir_parent|intros _].
  apply within_bind; [apply same_apart_trans|apply within_emit|intros _].
  apply within_bind; [apply same_apart_trans|by apply within_move|intros _].
  apply within_bind; [apply same_apart_trans|apply within_emit|intros _].
  apply within_bind; [apply same_apart_trans|by apply within_ask, same_apart_refl|].
  intros total_size.
  apply within_bind; [apply same_apart_trans|apply within_emit|intros _].
  destruct (format_megabytes total_size);
    [apply within_emit|by apply within_raise, same_apart_refl].
Qed.

End Frame.

Section Untouched.

Context {Model : Type}.
Variable YOLO : string → filesystem → (exn + Model) * filesystem.
Variable Model_export : Model → string → filesystem → (exn + unit) * filesystem.

(** X9.  Once the framework has exported, a run, however it ends, changes
    nothing but [output_dir], the export directory, and the
    directories on the way to [output_dir]: every entry at a location
    apart from both is as the framework left it. *)
Theorem nothing_else_touched model_name output_dir w model fs1 fs2 r w' :
  YOLO (model_name +:+ ".pt") (fs w) = (inr model, fs1) →
  Model_export model "tfjs" fs1 = (inr tt, fs2) →
  plain_run model_name output_dir fs2 = true →
  export_model YOLO Model_export model_name output_dir w = (r, w') →
  cwd (fs w') = cwd fs2 ∧
  ∀ x, apart x (locate fs2 output_dir) →
       apart x (locate fs2 (Path_of_name (model_name +:+ "_web_model"))) →
       find (root (fs w')) x = find (root fs2) x.
Proof.
  intros Hl He _ H. rewrite (run_exported _ _ _ _ _ _ _ _ Hl He) in H.
  apply (within_move_into_place fs2 output_dir _ model_name eq_refl) in H.
  by apply H.
Qed.

End Untouched.

(** ** Runs that return *)

Lemma walk_to_app n l r :
  walk_to n (l ++ r) =
  match walk_to n l with Found x => walk_to x r | e => e end.
Proof.
  revert n. induction l as [|c l IH]; intros n; [done|].
  cbn. destruct n as [|m|]; try done. by destruct (m !! c).
Qed.

Lemma try_Ok {A} (m : M A) handles h w a w' :
  m w = (Ok a, w') → try_except m handles h w = (Ok a, w').
Proof. unfold try_except. by intros ->. Qed.

Lemma try_handled {A} (m : M A) handles h w e w' :
  m w = (Raise e, w') → handles e = true → try_except m handles h w = h e w'.
Proof. unfold try_except. by intros -> ->. Qed.

Lemma os_mkdir_run p w d :
  parts p ≠ [] →
  walk_to (root (fs w)) (locate (fs w) p) = NoEnt →
  find (root (fs w)) (removelast (locate (fs w) p)) = Some (Dir d) →
  os_mkdir p w =
  (Ok tt, mkWorld (set_root (fs w) (put_at (locate (fs w) p) (Dir ∅) (root (fs w))))
            (trace w)).
Proof.
  intros Hp Hw Hpar. unfold os_mkdir, syscall, os_create. rewrite Hw, Hpar.
  by destruct (parts p).
Qed.

Lemma os_mkdir_no_parent p w :
  walk_to (root (fs w)) (locate (fs w) p) = NoEnt →
  find (root (fs w)) (removelast (locate (fs w) p)) = None →
  os_mkdir p w = (Raise FileNotFoundError, w).
Proof.
  intros Hw Hpar. unfold os_mkdir, syscall, os_create. rewrite Hw, Hpar.
  by destruct (parts p).
Qed.

(** [Path.mkdir(parents=True, exist_ok=True)] returns where the way
    holds directories only, as far as it exists; then the directory is
    there. *)
Lemma mkdir_parents_makes abs rp : ∀ w,
  (∃ d, find (root (fs w)) (locate (fs w) (mkPath abs [])) = Some (Dir d)) →
  (walk_to (root (fs w)) (locate (fs w) (mkPath abs (rev rp))) = NoEnt ∨
   ∃ d, walk_to (root (fs w)) (locate (fs w) (mkPath abs (rev rp))) = Found (Dir d)) →
  ∃ w', mkdir_parents abs rp w = (Ok tt, w') ∧
        ∃ d, find (root (fs w')) (locate (fs w) (mkPath abs (rev rp))) = Some (Dir d).
Proof.
  induction rp as [|c rp IH]; intros w Hbase Hway.
  { destruct Hbase as [d Hd]. exists w.
    split; [by apply (mkdir_parents_found _ _ _ d)|eauto]. }
  destruct Hway as [Hno|[d Hd]].
  2: { exists w. apply find_walk_to in Hd.
       split; [by apply (mkdir_parents_found _ _ _ d)|eauto]. }
  assert (parts (mkPath abs (rev (c :: rp))) ≠ []) as Hparts.
  { cbn. by destruct (rev rp). }
  cbn [rev] in Hno |- *. rewrite locate_snoc in Hno |- *.
  set (l' := locate (fs w) (mkPath abs (rev rp))) in *.
  pose proof Hno as Hno'. rewrite walk_to_app in Hno'.
  destruct (walk_to (root (fs w)) l') as [n| |] eqn:Hl'; [| |done].
  - (* the parent is there *)
    apply find_walk_to in Hl'.
    assert (∃ m, n = Dir m) as [m ->].
    { destruct n as [|m|]; [done|eauto|done]. }
    eexists. split.
    + cbn [mkdir_parents]. apply try_Ok. apply (os_mkdir_run _ _ m); [done| |].
      * cbn [rev]. by rewrite locate_snoc.
      * cbn [rev]. by rewrite locate_snoc, removelast_snoc.
    + cbn [fs root set_root rev]. rewrite locate_snoc. fold l'.
      exists ∅. apply find_put; [by destruct l'|]. rewrite removelast_snoc. eauto.
  - (* the parent is made first *)
    destruct (IH w Hbase (or_introl Hl')) as (w1 & Hrun1 & d1 & Hd1). fold l' in Hd1.
    pose proof (mkdir_parents_frame _ _ _ _ _ Hrun1) as [_ [Hc1 Hu1]]. fold l' in Hu1.
    assert (locate (fs w1) (mkPath abs (rev rp ++ [c])) = l' ++ [c]) as Hloc1.
    { rewrite (locate_cwd (fs w)) by done. by rewrite locate_snoc. }
    assert (walk_to (root (fs w1)) (l' ++ [c]) = NoEnt) as Hno1.
    { assert (find (root (fs w1)) (l' ++ [c]) = None) as Hf.
      { rewrite Hu1 by apply snoc_not_prefix. unfold find. by rewrite Hno. }
      rewrite find_app, Hd1 in Hf. cbn in Hf. rewrite find_cons in Hf.
      apply find_walk_to in Hd1. rewrite walk_to_app, Hd1. cbn.
      destruct (d1 !! c); [by cbn in Hf|done]. }
    eexists. split.
    + cbn [mkdir_parents].
      rewrite (try_handled _ _ _ w FileNotFoundError w); [| |done].
      2: { apply os_mkdir_no_parent; cbn [rev]; rewrite locate_snoc; [done|].
           rewrite removelast_snoc. fold l'. unfold find. by rewrite Hl'. }
      rewrite decide_True by done.
      erewrite bind_run by exact Hrun1.
      unfold Path_mkdir_exist_ok. apply try_Ok.
      apply (os_mkdir_run _ _ d1); [done| |]; cbn [rev]; rewrite Hloc1; [done|].
      by rewrite removelast_snoc.
    + cbn [fs root set_root rev]. rewrite Hloc1.
      exists ∅. apply find_put; [by destruct l'|]. rewrite removelast_snoc. eauto.
Qed.

Lemma Path_mkdir_makes p w :
  (∃ d, find (root (fs w)) (locate (fs w) (mkPath (absolute p) [])) = Some (Dir d)) →
  (walk_to (root (fs w)) (locate (fs w) p) = NoEnt ∨
   ∃ d, walk_to (root (fs w)) (locate (fs w) p) = Found (Dir d)) →
  ∃ w', Path_mkdir p w = (Ok tt, w') ∧
        ∃ d, find (root (fs w')) (locate (fs w) p) = Some (Dir d).
Proof.
  intros Hbase Hway. unfold Path_mkdir.
  destruct (mkdir_parents_makes (absolute p) (rev (parts p)) w Hbase)
    as (w' & Hrun & Hd).
  - rewrite rev_involutive. by destruct p.
  - exists w'. split; [done|]. rewrite rev_involutive in Hd. by destruct p.
Qed.

Lemma round_half_even_le a b : round_half_even a b ≤ a / b + 1.
Proof.
  unfold round_half_even.
  destruct (2 * (a mod b) ?= b); [destruct (N.even (a / b))| |]; lia.
Qed.

(** Below [2^1033] bytes there is no [OverflowError]. *)
Lemma format_megabytes_some n :
  n < 2 ^ 1033 → ∃ s, format_megabytes n = Some s.
Proof.
  intros Hn. unfold format_megabytes.
  assert (nearest_float n < 2 ^ 1034) as Hx.
  { unfold nearest_float. destruct (N.ltb_spec n (2 ^ 53)) as [Hs|Hs].
    - eapply N.lt_trans; [exact Hn|]. by apply N.pow_lt_mono_r.
    - set (e := N.log2 n - 52).
      assert (0 < n) as Hpos by (eapply N.lt_le_trans; [|exact Hs]; done).
      assert (2 ^ e ≤ n) as He.
      { etrans; [|apply (proj1 (N.log2_spec n Hpos))].
        apply N.pow_le_mono_r; [done|]. unfold e. lia. }
      assert (0 < 2 ^ e) as Hpe by (apply N.neq_0_lt_0, N.pow_nonzero; done).
      pose proof (round_half_even_le n (2 ^ e)) as Hr.
      pose proof (N.Div0.mul_div_le n (2 ^ e)) as Hd.
      assert (round_half_even n (2 ^ e) * 2 ^ e ≤ n + 2 ^ e) as Hb by nia.
      replace (2 ^ 1034) with (2 * 2 ^ 1033) by (by rewrite <-N.pow_succ_r').
      lia. }
  apply N.leb_gt in Hx. rewrite Hx. eauto.
Qed.

(** The move and the report, where the export is a directory without
    links, [output_dir] is free and its parent is there. *)
Lemma move_and_report_run model_name output_dir w p dp :
  let export_dir := Path_of_name (model_name +:+ "_web_model") in
  parts output_dir ≠ [] →
  lstat (fs w) export_dir = Some (Dir p) →
  lstat (fs w) output_dir = None →
  find (root (fs w)) (removelast (locate (fs w) output_dir)) = Some (Dir dp) →
  apart (locate (fs w) export_dir) (locate (fs w) output_dir) →
  link_free (Dir p) = true →
  regular_bytes (Dir p) < 2 ^ 1033 →
  ∃ w' mb,
    move_and_report model_name output_dir w = (Ok tt, w') ∧
    cwd (fs w') = cwd (fs w) ∧
    lstat (fs w') output_dir = Some (Dir p) ∧
    lstat (fs w') export_dir = None ∧
    format_megabytes (regular_bytes (Dir p)) = Some mb ∧
    trace w' = trace w ++
      [ Call_move export_dir output_dir; Call_rglob output_dir;
        Printed ("Model exported to " +:+ Path_str output_dir);
        Printed ("Total size: " +:+ mb +:+ " MB") ].
Proof.
  intros E Hp HE HO Hpar Hap Hfree Hsize.
  destruct (format_megabytes_some _ Hsize) as [mb Hmb].
  pose proof (locate_nonempty (fs w) _ Hp) as Hne.
  set (lO := locate (fs w) output_dir) in *.
  set (lE := locate (fs w) E) in *.
  set (fs4 := set_root (fs w) (put_at lO (Dir p) (remove_at lE (root (fs w))))).
  assert (lstat fs4 output_dir = Some (Dir p)) as HO4.
  { unfold lstat. unfold fs4 at 2. rewrite locate_set_root. fold lO.
    cbn [root fs4 set_root].
    apply find_put_after_remove; [done|apply Hap|eauto]. }
  assert (lstat fs4 E = None) as HE4.
  { unfold lstat. unfold fs4 at 2. rewrite locate_set_root. fold lE.
    cbn [root fs4 set_root].
    rewrite find_put_apart by (by apply apart_sym).
    apply find_remove. unfold lE, E. cbn. by destruct (cwd (fs w)). }
  exists (mkWorld fs4 (trace w ++
            [ Call_move E output_dir; Call_rglob output_dir;
              Printed ("Model exported to " +:+ Path_str output_dir);
              Printed ("Total size: " +:+ mb +:+ " MB") ])), mb.
  split_and!; [|done|exact HO4|exact HE4|exact Hmb|done].
  unfold move_and_report. fold E.
  erewrite bind_run by apply emit_run.
  erewrite bind_run.
  2: { apply shutil_move_run.
       - unfold stat. cbn [fs logged]. fold lO. unfold lstat in HO. fold lO in HO.
         rewrite follow_not_found; [reflexivity|exact HO].
       - cbn [fs logged]. apply (os_rename_run _ _ _ (Dir p) dp);
           [exact HE|done|exact Hp|exact Hpar|exact Hap|exact HO]. }
  fold lO lE fs4.
  erewrite bind_run by apply emit_run.
  erewrite bind_run by apply ask_run.
  erewrite bind_run by apply emit_run.
  cbn [fs trace logged].
  rewrite sum_file_sizes_counted. unfold counted_under. rewrite HO4.
  rewrite counted_link_free by exact Hfree. rewrite Hmb.
  unfold print. rewrite emit_run. unfold logged. cbn [fs trace].
  rewrite <-!app_assoc. reflexivity.
Qed.


Section Success.

Context {Model : Type}.
Variable YOLO : string → filesystem → (exn + Model) * filesystem.
Variable Model_export : Model → string → filesystem → (exn + unit) * filesystem.

(** X10.  The run returns whenever the framework has left a directory
    without symbolic links under [<model_name>_web_model], of less
    than [2^1033] bytes, apart from [output_dir], and [output_dir] is
    either a directory or missing, with no entry other than a
    directory on the way to it.  Then [output_dir] holds the export,
    the working directory holds it no more, and the last line tells
    its size. *)
Theorem run_succeeds model_name output_dir w model fs1 fs2 p :
  YOLO (model_name +:+ ".pt") (fs w) = (inr model, fs1) →
  Model_export model "tfjs" fs1 = (inr tt, fs2) →
  plain_run model_name output_dir fs2 = true →
  parts output_dir ≠ [] →
  lstat fs2 (Path_of_name (model_name +:+ "_web_model")) = Some (Dir p) →
  apart (locate fs2 (Path_of_name (model_name +:+ "_web_model")))
        (locate fs2 output_dir) →
  (∃ d, lstat fs2 output_dir = Some (Dir d)) ∨
  walk_to (root fs2) (locate fs2 output_dir) = NoEnt →
  link_free (Dir p) = true →
  regular_bytes (Dir p) < 2 ^ 1033 →
  ∃ w' mb,
    export_model YOLO Model_export model_name output_dir w = (Ok tt, w') ∧
    lstat (fs w') output_dir = Some (Dir p) ∧
    lstat (fs w') (Path_of_name (model_name +:+ "_web_model")) = None ∧
    format_megabytes (regular_bytes (Dir p)) = Some mb ∧
    last (trace w') = Some (Printed ("Total size: " +:+ mb +:+ " MB")).
Proof.
  intros Hl He _ Hp HE Hap Hdst Hfree Hsize.
  rewrite (run_exported _ _ _ _ _ _ _ _ Hl He).
  set (E := Path_of_name (model_name +:+ "_web_model")) in *.
  pose proof (locate_nonempty fs2 _ Hp) as Hne.
  set (lO := locate fs2 output_dir) in *.
  set (lE := locate fs2 E) in *.
  unfold move_into_place. fold E.
  erewrite bind_run by apply emit_run.
  unfold Path_exists. erewrite bind_run by apply ask_run.
  cbn [fs logged].
  (* up to the move *)
  assert (∃ w3 removed,
    ((if exists_ fs2 output_dir
      then emit (Call_rmtree output_dir) ;; shutil_rmtree output_dir
      else ret tt) ;;
     emit (Call_mkdir (parent output_dir)) ;;
     Path_mkdir (parent output_dir) ;;
     move_and_report model_name output_dir)
      (logged (Call_exists output_dir)
         (mkWorld fs2 (trace w ++ framework_calls model_name)))
    = move_and_report model_name output_dir w3 ∧
    cwd (fs w3) = cwd fs2 ∧
    find (root (fs w3)) lE = Some (Dir p) ∧
    find (root (fs w3)) lO = None ∧
    (∃ dp, find (root (fs w3)) (removelast lO) = Some (Dir dp)) ∧
    trace w3 = trace w ++ framework_calls model_name
                 ++ calls_before_move output_dir removed) as Hmid.
  { destruct Hdst as [[d Hd]|Hno].
    - (* [output_dir] is a directory: it is removed *)
      destruct (find_parent_dir _ _ _ Hne Hd) as [dp Hdp].
      destruct (find_alter_dir (λ _, None) _ _ _ _
                  (removelast_not_prefix _ Hne) Hdp) as [dp' Hdp'].
      eexists _, true. split.
      + rewrite (exists_found _ _ d) by exact Hd.
        erewrite bind_run by (apply (removal_run _ _ d); [exact Hp|exact Hd]).
        cbn [fs trace logged].
        erewrite bind_run by apply emit_run.
        erewrite bind_run;
          [|apply (Path_mkdir_found _ _ dp'); cbn [fs logged];
            rewrite locate_parent by done; rewrite locate_set_root; exact Hdp'].
        reflexivity.
      + cbn [fs trace logged set_root cwd root]. fold lO.
        split_and!; [done| |by apply find_remove|eauto|].
        * rewrite find_remove_apart; [exact HE|by apply apart_sym].
        * unfold calls_before_move. by rewrite <-!app_assoc.
    - (* [output_dir] is missing: its parent is made *)
      assert (lstat fs2 output_dir = None) as Habs.
      { unfold lstat, find. fold lO. by rewrite Hno. }
      rewrite (exists_absent _ _ Habs).
      erewrite bind_run by apply ret_run.
      erewrite bind_run by apply emit_run.
      set (w2 := logged _ _).
      destruct (Path_mkdir_makes (parent output_dir) w2) as (w3 & Hrun & dp & Hdp).
      { cbn [fs w2 logged parent absolute].
        destruct (find_snoc_dir _ _ _ _ HE) as (dc & Hdc & _).
        destruct (absolute output_dir); unfold locate; cbn.
        - destruct (cwd fs2) as [|c0 r0]; [eauto|].
          change (c0 :: r0) with ([] ++ c0 :: r0) in Hdc.
          by apply find_prefix_dir in Hdc.
        - rewrite app_nil_r. eauto. }
      { cbn [fs w2 logged]. rewrite locate_parent by done. fold lO.
        destruct (snoc_cases lO) as [?|(l0 & c & Hl0)]; [done|].
        rewrite Hl0, removelast_snoc. rewrite Hl0, walk_to_app in Hno.
        destruct (walk_to (root fs2) l0) as [[|m|]| |]; try done; eauto. }
      pose proof (Path_mkdir_frame _ _ _ _ Hrun) as [Htr [Hc Hu]].
      cbn [fs w2 logged trace] in Hdp, Htr, Hc, Hu.
      rewrite locate_parent in Hdp, Hu by done. fold lO in Hdp, Hu.
      exists w3, false. split; [by erewrite bind_run by exact Hrun|].
      split_and!; [done| | |eauto|].
      * rewrite Hu; [exact HE|]. intros Hpre. apply (proj1 Hap).
        by apply prefix_removelast.
      * rewrite Hu; [exact Habs|]. by apply removelast_not_prefix.
      * rewrite Htr. unfold calls_before_move. by rewrite <-!app_assoc. }
  destruct Hmid as (w3 & removed & Hrun & Hc & HE3 & HO3 & [dp Hdp] & Htr).
  change (emit (Call_move E output_dir) ;; _)
    with (move_and_report model_name output_dir) in Hrun |- *.
  rewrite Hrun.
  destruct (move_and_report_run model_name output_dir w3 p dp)
    as (w' & mb & Hrun' & Hc' & HO' & HE' & Hmb & Htr'); try done.
  - unfold lstat. by rewrite (locate_cwd fs2).
  - unfold lstat. by rewrite (locate_cwd fs2).
  - by rewrite (locate_cwd fs2).
  - by rewrite !(locate_cwd fs2 (fs w3)).
  - exists w', mb. split_and!; [done|done|done|done|].
    rewrite Htr'. by rewrite last_app.
Qed.

End Success.


(** ** The size on the last line *)

Lemma round_half_even_near a b :
  0 < b →
  2 * b * round_half_even a b ≤ 2 * a + b ∧
  2 * a ≤ 2 * b * round_half_even a b + b.
Proof.
  intros Hb. unfold round_half_even.
  pose proof (N.div_mod a b ltac:(lia)) as Ha.
  pose proof (N.mod_lt a b ltac:(lia)) as Hr.
  set (q := a / b) in *. set (r := a mod b) in *.
  destruct (N.compare_spec (2 * r) b); [destruct (N.even q)| |]; nia.
Qed.

(** X11.  Below [2^53] bytes the figure on the last line is the size in MiB
    rounded to the nearest tenth: it is off by 0.05 MiB at most. *)
Theorem size_report_accuracy n :
  n < 2 ^ 53 →
  ∃ t, format_megabytes n = Some (pretty (t / 10) +:+ "." +:+ pretty (t mod 10)) ∧
       2 ^ 20 * t ≤ 10 * n + 2 ^ 19 ∧
       10 * n ≤ 2 ^ 20 * t + 2 ^ 19.
Proof.
  intros Hn. unfold format_megabytes, nearest_float.
  apply N.ltb_lt in Hn as Hn'. rewrite Hn'.
  assert ((2 ^ 1034 <=? n) = false) as ->.
  { apply N.leb_gt. eapply N.lt_trans; [exact Hn|]. by apply N.pow_lt_mono_r. }
  exists (round_half_even (n * 10) (2 ^ 20)). split; [done|].
  destruct (round_half_even_near (n * 10) (2 ^ 20)) as [H1 H2]; [done|].
  change (2 ^ 20) with 1048576 in *. change (2 ^ 19) with 524288. lia.
Qed.

(** X12.  [OverflowError] is raised from [2^1034 - 2^980] bytes on, and not
    below. *)
Theorem overflow_threshold n :
  format_megabytes n = None ↔ 2 ^ 1034 - 2 ^ 980 ≤ n.
Proof.
  unfold format_megabytes.
  assert (2 ^ 1034 ≤ nearest_float n ↔ 2 ^ 1034 - 2 ^ 980 ≤ n) as Hx.
  { set (B := 2 ^ 980).
    assert (0 < B) as HB by (apply N.neq_0_lt_0, N.pow_nonzero; done).
    assert (2 ^ 981 = 2 * B) as H981 by (unfold B; by rewrite <-N.pow_succ_r').
    assert (2 ^ 1033 = 2 ^ 53 * B) as H1033 by (unfold B; by rewrite <-N.pow_add_r).
    assert (2 ^ 1034 = 2 ^ 54 * B) as H1034 by (unfold B; by rewrite <-N.pow_add_r).
    assert (2 ^ 53 ≤ B) as H53 by (unfold B; by apply N.pow_le_mono_r).
    rewrite H1034. unfold nearest_float.
    change (2 ^ 54) with 18014398509481984 in *.
    change (2 ^ 53) with 9007199254740992 in *.
    destruct (N.ltb_spec n 9007199254740992) as [Hs|Hs]; [nia|].
    assert (0 < n) as Hpos by lia.
    destruct (N.lt_ge_cases n (2 ^ 1033)) as [Hlow|Hhigh].
    - (* below 2^1033 *)
      set (e := N.log2 n - 52).
      assert (2 ^ e ≤ n) as He.
      { etrans; [|apply (proj1 (N.log2_spec n Hpos))].
        apply N.pow_le_mono_r; [done|]. unfold e. lia. }
      assert (0 < 2 ^ e) as Hpe by (apply N.neq_0_lt_0, N.pow_nonzero; done).
      pose proof (round_half_even_le n (2 ^ e)) as Hr.
      pose proof (N.Div0.mul_div_le n (2 ^ e)) as Hd.
      rewrite H1033 in Hlow. nia.
    - destruct (N.lt_ge_cases n (2 ^ 1034)) as [Hmid|Htop].
      + (* from 2^1033 to 2^1034 *)
        assert (N.log2 n = 1033) as ->.
        { apply N.log2_unique; [done|]. split; [exact Hhigh|exact Hmid]. }
        change (1033 - 52) with 981. rewrite H981.
        rewrite H1033 in Hhigh. rewrite H1034 in Hmid.
        change (2 ^ 54) with 18014398509481984 in *.
        change (2 ^ 53) with 9007199254740992 in *.
        unfold round_half_even.
        pose proof (N.div_mod n (2 * B) ltac:(lia)) as Ha.
        pose proof (N.mod_lt n (2 * B) ltac:(lia)) as Hr.
        set (q := n / (2 * B)) in *. set (r := n mod (2 * B)) in *.
        assert (q < 9007199254740992) as Hq by nia.
        destruct (N.compare_spec (2 * r) (2 * B)) as [Heq|Hlt|Hgt].
        * destruct (N.even q) eqn:Hev.
          -- split; [nia|]. intros Hn.
             assert (q = 9007199254740991) as -> by nia. done.
          -- split; [|nia]. nia.
        * split; nia.
        * split; nia.
      + (* from 2^1034 on *)
        set (e := N.log2 n - 52).
        assert (1034 ≤ N.log2 n) as Hlog.
        { rewrite <-(N.log2_pow2 1034) by done. by apply N.log2_le_mono. }
        assert (2 ^ 1034 ≤ 2 ^ N.log2 n) as Hp2 by (by apply N.pow_le_mono_r).
        assert (2 ^ N.log2 n = 2 ^ 52 * 2 ^ e) as Hsplit.
        { rewrite <-N.pow_add_r. f_equal. unfold e. lia. }
        assert (0 < 2 ^ e) as Hpe by (apply N.neq_0_lt_0, N.pow_nonzero; done).
        pose proof (proj1 (N.log2_spec n Hpos)) as Hle.
        assert (2 ^ 52 ≤ n / 2 ^ e) as Hq.
        { apply N.div_le_lower_bound; [lia|]. rewrite N.mul_comm, <-Hsplit. exact Hle. }
        assert (n / 2 ^ e ≤ round_half_even n (2 ^ e)) as Hr.
        { unfold round_half_even.
          destruct (2 * (n mod 2 ^ e) ?= 2 ^ e); [destruct (N.even _)| |]; lia. }
        rewrite H1034 in Htop, Hp2.
        change (2 ^ 54) with 18014398509481984 in *.
        split; [intros _; nia|intros _].
        rewrite Hsplit in Hp2. etrans; [exact Hp2|].
        apply N.mul_le_mono_r. lia. }
  destruct (N.leb_spec (2 ^ 1034) (nearest_float n)) as [Hle|Hlt].
  - split; [intros _; by apply Hx|done].
  - split; [done|]. intros Hn. apply Hx in Hn. lia.
Qed.

(** ** Every entry once *)

Lemma walk_Dir_elem m c r :
  (c :: r) ∈ walk (Dir m) ↔ ∃ n', m !! c = Some n' ∧ (r = [] ∨ r ∈ walk n').
Proof.
  cbn [walk].
  induction m as [|c0 n0 m Hc0 Hfirst IH] using map_first_key_ind.
  { rewrite map_fold_empty, elem_of_nil. split; [done|].
    intros (n' & H & _). by rewrite lookup_empty in H. }
  rewrite map_fold_insert_first_key by done.
  rewrite elem_of_app, elem_of_cons, IH. split.
  - intros [[Heq|Hin]|(n' & Hn' & Hr)].
    + injection Heq as -> ->. exists n0. rewrite lookup_insert_eq. eauto.
    + apply list_elem_of_fmap in Hin as (y & [= -> ->] & Hy).
      exists n0. rewrite lookup_insert_eq. eauto.
    + exists n'. rewrite lookup_insert_ne; [eauto|]. intros ->. congruence.
  - intros (n' & Hn' & Hr). destruct (decide (c = c0)) as [->|Hne].
    + rewrite lookup_insert_eq in Hn'. injection Hn' as <-. left.
      destruct Hr as [->|Hr]; [by left|right].
      apply list_elem_of_fmap. eauto.
    + rewrite lookup_insert_ne in Hn' by done. right. eauto.
Qed.

Lemma walk_elem n : ∀ x, x ∈ walk n ↔ x ≠ [] ∧ is_Some (find n x).
Proof.
  induction n as [s|t|m IH] using node_tree_ind; intros x.
  - cbn. rewrite elem_of_nil. split; [done|]. intros [Hx [y Hy]].
    destruct x; [done|]. by rewrite find_cons in Hy.
  - cbn. rewrite elem_of_nil. split; [done|]. intros [Hx [y Hy]].
    destruct x; [done|]. by rewrite find_cons in Hy.
  - destruct x as [|c r].
    + split; [|by intros [? _]]. intros H.
      pose proof (walk_nonempty (Dir m)) as Hne.
      rewrite Forall_forall in Hne. by apply Hne in H.
    + rewrite walk_Dir_elem, find_cons. split.
      * intros (n' & Hn' & Hr). split; [done|]. rewrite Hn'. cbn.
        destruct Hr as [->|Hr]; [by rewrite find_nil|].
        by apply (IH c n' Hn') in Hr as [_ ?].
      * intros [_ [y Hy]]. destruct (m !! c) as [n'|] eqn:Hc; [|done].
        cbn in Hy. exists n'. split; [done|].
        destruct r as [|c' r']; [by left|right].
        apply (IH c n' Hc). split; [done|eauto].
Qed.

Lemma walk_NoDup n : NoDup (walk n).
Proof.
  induction n as [s|t|m IH] using node_tree_ind; [constructor..|].
  revert IH. induction m as [|c0 n0 m Hc0 Hfirst IHm] using map_first_key_ind;
    intros IH.
  { cbn [walk]. rewrite map_fold_empty. constructor. }
  apply map_Forall_insert in IH as [Hn0 IH]; [|done].
  cbn [walk]. rewrite map_fold_insert_first_key by done.
  apply NoDup_app. split_and!.
  - apply NoDup_cons. split.
    + intros (y & Heq & Hy)%list_elem_of_fmap. injection Heq as <-.
      pose proof (walk_nonempty n0) as Hne.
      rewrite Forall_forall in Hne. by apply Hne in Hy.
    + apply NoDup_fmap_2_strong; [|exact Hn0].
      intros x y _ _ Heq. by injection Heq.
  - intros x Hx Hx'.
    assert (∃ r, x = c0 :: r) as [r ->].
    { apply elem_of_cons in Hx as [->|(y & -> & _)%list_elem_of_fmap]; eauto. }
    change (map_fold _ [] m) with (walk (Dir m)) in Hx'.
    apply walk_Dir_elem in Hx' as (n' & Hn' & _). congruence.
  - by apply IHm.
Qed.

(** X13.  [output_dir.rglob("*")] yields every entry below the directory,
    whatever its kind, and each of them once. *)
Theorem rglob_every_entry_once fs0 p m :
  lstat fs0 p = Some (Dir m) →
  NoDup (rglob fs0 p) ∧
  ∀ q, q ∈ rglob fs0 p ↔
       ∃ x, x ≠ [] ∧ q = joinpath p x ∧ is_Some (lstat fs0 q).
Proof.
  intros Hp. unfold rglob, stat.
  unfold lstat in Hp. rewrite (follow_found _ _ _ (Dir m)) by done.
  cbn [fmap option_fmap option_map snd].
  split.
  - apply NoDup_fmap_2_strong; [|apply walk_NoDup].
    intros x y _ _ Heq. unfold joinpath in Heq. injection Heq as Heq.
    by apply app_inv_head in Heq.
  - intros q. rewrite list_elem_of_fmap. split.
    + intros (x & -> & [Hx Hf]%walk_elem). exists x. split_and!; [done..|].
      unfold lstat. by rewrite locate_joinpath, find_app, Hp.
    + intros (x & Hx & -> & Hq). exists x. split; [done|].
      apply walk_elem. split; [done|].
      unfold lstat in Hq. by rewrite locate_joinpath, find_app, Hp in Hq.
Qed.

(** ** Old or new, never both *)

Lemma report_keeps_fs output_dir w r w' :
  (emit (Call_rglob output_dir) ;;
   total_size <- ask (λ fs, sum_file_sizes fs output_dir) ;;
   print ("Model exported to " +:+ Path_str output_dir) ;;
   match format_megabytes total_size with
   | Some mb => print ("Total size: " +:+ mb +:+ " MB")
   | None => raise OverflowError
   end) w = (r, w') →
  fs w' = fs w.
Proof.
  erewrite bind_run by apply emit_run.
  erewrite bind_run by apply ask_run.
  unfold print. erewrite bind_run by apply emit_run.
  cbn [fs logged].
  match goal with
  | |- context [format_megabytes ?t] => destruct (format_megabytes t)
  end.
  - rewrite emit_run. by intros [= _ <-].
  - unfold raise. by intros [= _ <-].
Qed.

Section Replace.

Context {Model : Type}.
Variable YOLO : string → filesystem → (exn + Model) * filesystem.
Variable Model_export : Model → string → filesystem → (exn + unit) * filesystem.

(** X14.  Where [output_dir] was a directory or missing, and the export
    lies apart from it, a run, however it ends once the framework has
    exported, leaves [output_dir] either missing or holding exactly
    what the framework left at the export directory: what was in it
    before never stays, alone or mixed with the new. *)
Theorem old_or_new model_name output_dir w model fs1 fs2 r w' :
  YOLO (model_name +:+ ".pt") (fs w) = (inr model, fs1) →
  Model_export model "tfjs" fs1 = (inr tt, fs2) →
  plain_run model_name output_dir fs2 = true →
  parts output_dir ≠ [] →
  apart (locate fs2 (Path_of_name (model_name +:+ "_web_model")))
        (locate fs2 output_dir) →
  lstat fs2 output_dir = None ∨ (∃ d, lstat fs2 output_dir = Some (Dir d)) →
  export_model YOLO Model_export model_name output_dir w = (r, w') →
  exists_ (fs w') output_dir = false ∨
  lstat (fs w') output_dir
  = lstat fs2 (Path_of_name (model_name +:+ "_web_model")).
Proof.
  intros Hl He _ Hp Hap Hdst. rewrite (run_exported _ _ _ _ _ _ _ _ Hl He).
  set (E := Path_of_name (model_name +:+ "_web_model")) in *.
  pose proof (locate_nonempty fs2 _ Hp) as Hne.
  unfold move_into_place. fold E.
  erewrite bind_run by apply emit_run.
  unfold Path_exists. erewrite bind_run by apply ask_run.
  cbn [fs logged].
  (* after the removal, if any: [output_dir] is missing, the export is
     where it was *)
  assert (∃ w3,
    (if exists_ fs2 output_dir
     then emit (Call_rmtree output_dir) ;; shutil_rmtree output_dir
     else ret tt)
      (logged (Call_exists output_dir)
         (mkWorld fs2 (trace w ++ framework_calls model_name)))
    = (Ok tt, w3) ∧
    cwd (fs w3) = cwd fs2 ∧
    find (root (fs w3)) (locate fs2 output_dir) = None ∧
    find (root (fs w3)) (locate fs2 E) = find (root fs2) (locate fs2 E))
    as (w3 & Hrm & Hc3 & HO3 & HE3).
  { destruct Hdst as [Habs|[d Hd]].
    - rewrite (exists_absent _ _ Habs). eexists. split; [reflexivity|].
      cbn [fs logged]. by split_and!.
    - rewrite (exists_found _ _ d) by exact Hd. eexists.
      split; [apply (removal_run _ _ d); [exact Hp|exact Hd]|].
      cbn [fs logged set_root cwd root]. split_and!; [done| |].
      + by apply find_remove.
      + apply find_remove_apart. by apply apart_sym. }
  erewrite bind_run by exact Hrm.
  erewrite bind_run by apply emit_run.
  intros H. apply bind_cases in H as [(u1 & w4 & Hmk & H)|(e & Hmk & ->)].
  2: { (* the parent could not be made *)
       left. apply exists_absent.
       apply Path_mkdir_frame in Hmk as [_ [Hc Hu]]. cbn [fs logged] in Hc, Hu.
       unfold lstat. rewrite (locate_cwd fs2 (fs w')) by congruence.
       rewrite Hu; [exact HO3|]. rewrite locate_parent by done.
       rewrite (locate_cwd fs2 (fs w3)) by done. by apply removelast_not_prefix. }
  apply Path_mkdir_frame in Hmk as [_ [Hc4 Hu4]]. cbn [fs logged] in Hc4, Hu4.
  rewrite locate_parent, (locate_cwd fs2 (fs w3)) in Hu4 by done.
  assert (find (root (fs w4)) (locate fs2 output_dir) = None) as HO4.
  { rewrite Hu4; [exact HO3|]. by apply removelast_not_prefix. }
  assert (find (root (fs w4)) (locate fs2 E) = find (root fs2) (locate fs2 E)) as HE4.
  { rewrite Hu4; [exact HE3|]. intros Hpre. apply (proj1 Hap).
    by apply prefix_removelast. }
  assert (cwd (fs w4) = cwd fs2) as Hc4' by congruence.
  erewrite bind_run in H by apply emit_run.
  assert (parts E ≠ []) as HpE by (unfold E; cbn; discriminate).
  assert (stat (fs (logged (Call_move E output_dir) w4)) output_dir = None) as Hst.
  { unfold stat. cbn [fs logged]. rewrite (locate_cwd fs2 (fs w4)) by done.
    by rewrite follow_not_found. }
  apply bind_cases in H as [(p & w6 & Hmv & H)|(e & Hmv & ->)].
  2: { (* the move failed *)
       left. apply (shutil_move_Raise _ _ _ _ _ HpE) in Hmv; [|exact Hst].
       unfold exists_. rewrite Hmv. reflexivity. }
  apply shutil_move_Ok in Hmv as (_ & _ & Hc6 & _ & _ & n & Hn & Hn');
    [|apply stat_none_is_dir; exact Hst].
  apply report_keeps_fs in H. right. rewrite H, Hn'.
  unfold lstat in Hn |- *. cbn [fs logged] in Hn.
  rewrite (locate_cwd fs2 (fs w4)) in Hn by done. by rewrite <-HE4.
Qed.

End Replace.

(** * The claims on plain runs *)

Section Claims.

Context {Model : Type}.
Variable YOLO : string → filesystem → (exn + Model) * filesystem.
Variable Model_export : Model → string → filesystem → (exn + unit) * filesystem.








(** C10.  The framework's loader is called with [<model_name>.pt], and
    with nothing else: what it does at this one name decides the run.
    Where it raises, the run ends with its error and the file system
    it left; the model it returns is the one that is exported; and no
    run returns unless it has returned. *)
Theorem C10_weights_file model_name output_dir w :
  export_model YOLO Model_export model_name output_dir w
  = export_model (only_at (model_name +:+ ".pt") YOLO) Model_export
      model_name output_dir w ∧
  (∀ e fs1,
     YOLO (model_name +:+ ".pt") (fs w) = (inl e, fs1) →
     export_model YOLO Model_export model_name output_dir w =
     (Raise e,
      mkWorld fs1 (trace w ++ [ Printed ("Loading " +:+ model_name +:+ "...");
                                Call_YOLO (model_name +:+ ".pt") ]))) ∧
  (∀ model fs1 e fs2,
     YOLO (model_name +:+ ".pt") (fs w) = (inr model, fs1) →
     Model_export model "tfjs" fs1 = (inl e, fs2) →
     export_model YOLO Model_export model_name output_dir w =
     (Raise e, mkWorld fs2 (trace w ++ framework_calls model_name))) ∧
  (∀ u w',
     export_model YOLO Model_export model_name output_dir w = (Ok u, w') →
     ∃ model fs1 fs2,
       YOLO (model_name +:+ ".pt") (fs w) = (inr model, fs1) ∧
       Model_export model "tfjs" fs1 = (inr tt, fs2)).
Proof.
  split_and!.
  - unfold export_model, only_at.
    by destruct (decide (model_name +:+ ".pt" = model_name +:+ ".pt")).
  - intros e fs1 H. unfold export_model, bind, print, emit, external.
    cbn [fs trace]. rewrite H. by rewrite <-app_assoc.
  - intros model fs1 e fs2 Hl He. unfold export_model.
    erewrite bind_run by apply emit_run.
    erewrite bind_run by apply emit_run.
    erewrite bind_run by (apply external_run; exact Hl).
    erewrite bind_run by apply emit_run.
    erewrite bind_run by apply emit_run.
    erewrite bind_raise by (apply external_raise; exact He).
    unfold logged, framework_calls. cbn [fs trace]. by rewrite <-!app_assoc.
  - intros u w' (model & fs1 & fs2 & n & mb & Hl & He & _)%run_Ok. eauto.
Qed.


End Claims.

(** * Concrete runs *)










(** C4, as the specification has it, fails: the removal comes before
    the parent is made, not after. *)
Lemma C4_counterexample :
  (stub_run "yolo26s_web_model" two_files "yolo26s" public_model project).1
    = Ok tt ∧
  trace (stub_run "yolo26s_web_model" two_files "yolo26s" public_model project).2
    !! 5%nat = Some (Call_rmtree public_model) ∧
  trace (stub_run "yolo26s_web_model" two_files "yolo26s" public_model project).2
    !! 6%nat = Some (Call_mkdir (parent public_model)) ∧
  trace (stub_run "yolo26s_web_model" two_files "yolo26s" public_model project).2
    !! 7%nat = Some (Call_move (Path_of_name "yolo26s_web_model") public_model).
Proof. vm_compute. repeat split; reflexivity. Qed.

Lemma C5_witness :
  lstat project public_model = Some (Dir {[ "old.bin" := File 999 ]}) ∧
  stub_run "yolo26s_web_model" two_files "not-a-real-model" public_model project
  = (Raise (FrameworkError "no such model"),
     mkWorld project [ Printed "Loading not-a-real-model...";
                       Call_YOLO "not-a-real-model.pt" ]).
Proof.
  split; [by vm_compute|].
  apply (C5_load_failure stub_YOLO (stub_export "yolo26s_web_model" two_files)
           "not-a-real-model" public_model (start project)).
  reflexivity.
Defined.
(** ** Runs that fail, runs that return *)

Lemma export_failure_witness :
  lstat project public_model = Some (Dir {[ "old.bin" := File 999 ]}) ∧
  export_model stub_YOLO failing_export "yolo26s" public_model (start project)
  = (Raise (FrameworkError "export failed"),
     mkWorld project (trace (start project) ++ framework_calls "yolo26s")).
Proof.
  split; [by vm_compute|].
  apply (export_failure stub_YOLO failing_export "yolo26s" public_model
           (start project) tt project (FrameworkError "export failed") project);
    reflexivity.
Defined.

Lemma output_not_a_directory_witness :
  rmtree_refusal
    (lstat (after_export "yolo26s_web_model" two_files project_with_file)
       public_model) = NotADirectoryError ∧
  export_model stub_YOLO (stub_export "yolo26s_web_model" two_files) "yolo26s"
    public_model (start project_with_file)
  = (Raise (rmtree_refusal
              (lstat (after_export "yolo26s_web_model" two_files project_with_file)
                 public_model)),
     mkWorld (after_export "yolo26s_web_model" two_files project_with_file)
       (trace (start project_with_file) ++ framework_calls "yolo26s"
          ++ [Call_exists public_model; Call_rmtree public_model])).
Proof.
  split; [by vm_compute|].
  apply (output_not_a_directory stub_YOLO (stub_export "yolo26s_web_model" two_files)
           "yolo26s" public_model (start project_with_file) tt project_with_file).
  - reflexivity.
  - reflexivity.
  - vm_compute. reflexivity.
  - intros d H. vm_compute in H. discriminate H.
Defined.

Lemma output_without_parts_witness :
  ∃ msg w',
    export_model stub_YOLO (stub_export "yolo26s_web_model" two_files) "yolo26s"
      (mkPath false []) (start project)
    = (Raise (OSError msg), w') ∧
    lstat (fs w') (mkPath false []) = Some (Dir ∅) ∧
    trace w' = trace (start project) ++ framework_calls "yolo26s"
                 ++ [Call_exists (mkPath false []); Call_rmtree (mkPath false [])].
Proof.
  apply (output_without_parts stub_YOLO (stub_export "yolo26s_web_model" two_files)
           "yolo26s" (mkPath false []) (start project) tt project
           (after_export "yolo26s_web_model" two_files project)
           {[ "export_model.py" := File 1400; "yolo26s_web_model" := two_files ]}).
  - reflexivity.
  - reflexivity.
  - reflexivity.
  - vm_compute. reflexivity.
Defined.

Lemma export_missing_witness :
  (∃ e w', export_model stub_YOLO (stub_export "yolo26s_saved_model" two_files)
             "yolo26s" public_model (start project) = (Raise e, w')) ∧
  (∀ d, parts public_model ≠ [] →
     lstat (after_export "yolo26s_saved_model" two_files project) public_model
     = Some (Dir d) →
     ∃ w', export_model stub_YOLO (stub_export "yolo26s_saved_model" two_files)
             "yolo26s" public_model (start project)
           = (Raise FileNotFoundError, w') ∧
           fs w' = set_root (after_export "yolo26s_saved_model" two_files project)
                     (remove_at
                        (locate (after_export "yolo26s_saved_model" two_files project)
                           public_model)
                        (root (after_export "yolo26s_saved_model" two_files project))) ∧
           lstat (fs w') public_model = None).
Proof.
  apply (export_missing stub_YOLO (stub_export "yolo26s_saved_model" two_files)
           "yolo26s" public_model (start project) tt project
           (after_export "yolo26s_saved_model" two_files project)).
  - reflexivity.
  - reflexivity.
  - vm_compute. reflexivity.
  - vm_compute. reflexivity.
Defined.

Lemma output_holds_export_witness :
  ∃ w', export_model stub_YOLO (stub_export "yolo26s_web_model" two_files) "yolo26s"
          (Path_of_name "yolo26s_web_model") (start project)
        = (Raise FileNotFoundError, w') ∧
        lstat (fs w') (Path_of_name ("yolo26s" +:+ "_web_model")) = None ∧
        lstat (fs w') (Path_of_name "yolo26s_web_model") = None.
Proof.
  apply (output_holds_export stub_YOLO (stub_export "yolo26s_web_model" two_files)
           "yolo26s" (Path_of_name "yolo26s_web_model") (start project) tt project
           (after_export "yolo26s_web_model" two_files project)
           {[ "model.json" := File 50; "group1-shard1of1.bin" := File 100 ]}).
  - reflexivity.
  - reflexivity.
  - vm_compute. reflexivity.
  - done.
  - vm_compute. reflexivity.
  - by exists [].
Defined.

Lemma parent_blocked_witness :
  export_model stub_YOLO (stub_export "yolo26s_web_model" two_files) "yolo26s"
    public_model (start project_blocked)
  = (Raise (if decide (["proj"; "resources"]
                       = locate (after_export "yolo26s_web_model" two_files
                                   project_blocked) (parent public_model))
            then FileExistsError else NotADirectoryError),
     mkWorld (after_export "yolo26s_web_model" two_files project_blocked)
       (trace (start project_blocked) ++ framework_calls "yolo26s"
          ++ [Call_exists public_model; Call_mkdir (parent public_model)])).
Proof.
  apply (parent_blocked stub_YOLO (stub_export "yolo26s_web_model" two_files)
           "yolo26s" public_model (start project_blocked) tt project_blocked
           (after_export "yolo26s_web_model" two_files project_blocked)
           ["proj"; "resources"] 3).
  - reflexivity.
  - reflexivity.
  - done.
  - by exists ["public"].
  - vm_compute. reflexivity.
Defined.

Lemma dangling_link_output_witness :
  export_model stub_YOLO (stub_export "yolo26s_web_model" two_files) "yolo26s"
    public_model (start project_with_link)
  = (Raise FileExistsError,
     mkWorld (after_export "yolo26s_web_model" two_files project_with_link)
       (trace (start project_with_link) ++ framework_calls "yolo26s"
          ++ [Call_exists public_model; Call_mkdir (parent public_model);
              Call_move (Path_of_name ("yolo26s" +:+ "_web_model")) public_model])).
Proof.
  apply (dangling_link_output stub_YOLO (stub_export "yolo26s_web_model" two_files)
           "yolo26s" public_model (start project_with_link) tt project_with_link
           (after_export "yolo26s_web_model" two_files project_with_link)
           (mkPath false ["gone"])
           {[ "model.json" := File 50; "group1-shard1of1.bin" := File 100 ]}).
  - reflexivity.
  - reflexivity.
  - vm_compute. reflexivity.
  - done.
  - vm_compute. reflexivity.
  - vm_compute. reflexivity.
  - vm_compute. reflexivity.
  - intros [k Hk]. vm_compute in Hk. discriminate Hk.
Defined.

Lemma export_moved_witness :
  lstat (fs (stub_run "yolo26s_web_model" two_files "yolo26s" public_model
               project).2) (Path_of_name ("yolo26s" +:+ "_web_model")) = None ∨
  locate (fs (stub_run "yolo26s_web_model" two_files "yolo26s" public_model
                project).2) (Path_of_name ("yolo26s" +:+ "_web_model"))
  = locate (fs (stub_run "yolo26s_web_model" two_files "yolo26s" public_model
                  project).2) public_model.
Proof.
  apply (export_moved stub_YOLO (stub_export "yolo26s_web_model" two_files)
           "yolo26s" public_model (start project) tt project
           (after_export "yolo26s_web_model" two_files project) tt).
  - reflexivity.
  - reflexivity.
  - vm_compute. reflexivity.
  - vm_compute. reflexivity.
Defined.

Lemma nothing_else_touched_witness :
  cwd (fs (stub_run "yolo26s_web_model" two_files "yolo26s" public_model
             project).2)
  = cwd (after_export "yolo26s_web_model" two_files project) ∧
  ∀ x, apart x (locate (after_export "yolo26s_web_model" two_files project)
                  public_model) →
       apart x (locate (after_export "yolo26s_web_model" two_files project)
                  (Path_of_name ("yolo26s" +:+ "_web_model"))) →
       find (root (fs (stub_run "yolo26s_web_model" two_files "yolo26s"
                         public_model project).2)) x
       = find (root (after_export "yolo26s_web_model" two_files project)) x.
Proof.
  apply (nothing_else_touched stub_YOLO (stub_export "yolo26s_web_model" two_files)
           "yolo26s" public_model (start project) tt project
           (after_export "yolo26s_web_model" two_files project)
           (stub_run "yolo26s_web_model" two_files "yolo26s" public_model project).1).
  - reflexivity.
  - reflexivity.
  - vm_compute. reflexivity.
  - apply surjective_pairing.
Defined.

Lemma run_succeeds_witness :
  ∃ w' mb,
    export_model stub_YOLO (stub_export "yolo26s_web_model" two_files) "yolo26s"
      out_model (start fresh_project) = (Ok tt, w') ∧
    lstat (fs w') out_model
    = Some (Dir {[ "model.json" := File 50; "group1-shard1of1.bin" := File 100 ]}) ∧
    lstat (fs w') (Path_of_name ("yolo26s" +:+ "_web_model")) = None ∧
    format_megabytes
      (regular_bytes
         (Dir {[ "model.json" := File 50; "group1-shard1of1.bin" := File 100 ]}))
    = Some mb ∧
    last (trace w') = Some (Printed ("Total size: " +:+ mb +:+ " MB")).
Proof.
  apply (run_succeeds stub_YOLO (stub_export "yolo26s_web_model" two_files)
           "yolo26s" out_model (start fresh_project) tt fresh_project
           (after_export "yolo26s_web_model" two_files fresh_project)).
  - reflexivity.
  - reflexivity.
  - vm_compute. reflexivity.
  - done.
  - vm_compute. reflexivity.
  - split; intros [k Hk]; vm_compute in Hk; discriminate Hk.
  - right. vm_compute. reflexivity.
  - vm_compute. reflexivity.
  - vm_compute. reflexivity.
Defined.

Lemma size_report_accuracy_witness :
  ∃ t, format_megabytes 262144
       = Some (pretty (t / 10) +:+ "." +:+ pretty (t mod 10)) ∧
       2 ^ 20 * t ≤ 10 * 262144 + 2 ^ 19 ∧
       10 * 262144 ≤ 2 ^ 20 * t + 2 ^ 19.
Proof. apply (size_report_accuracy 262144). reflexivity. Defined.

Lemma rglob_every_entry_once_witness :
  NoDup (rglob (after_export "yolo26s_web_model" two_files project)
           (Path_of_name "yolo26s_web_model")) ∧
  ∀ q, q ∈ rglob (after_export "yolo26s_web_model" two_files project)
             (Path_of_name "yolo26s_web_model") ↔
       ∃ x, x ≠ [] ∧ q = joinpath (Path_of_name "yolo26s_web_model") x ∧
            is_Some (lstat (after_export "yolo26s_web_model" two_files project) q).
Proof.
  apply (rglob_every_entry_once
           (after_export "yolo26s_web_model" two_files project)
           (Path_of_name "yolo26s_web_model")
           {[ "model.json" := File 50; "group1-shard1of1.bin" := File 100 ]}).
  vm_compute. reflexivity.
Defined.

Lemma old_or_new_witness :
  lstat (after_export "yolo26s_web_model" two_files project) public_model
  = Some (Dir {[ "old.bin" := File 999 ]}) ∧
  (exists_ (fs (stub_run "yolo26s_web_model" two_files "yolo26s" public_model
                  project).2) public_model = false ∨
   lstat (fs (stub_run "yolo26s_web_model" two_files "yolo26s" public_model
                project).2) public_model
   = lstat (after_export "yolo26s_web_model" two_files project)
       (Path_of_name ("yolo26s" +:+ "_web_model"))).
Proof.
  split; [by vm_compute|].
  apply (old_or_new stub_YOLO (stub_export "yolo26s_web_model" two_files)
           "yolo26s" public_model (start project) tt project
           (after_export "yolo26s_web_model" two_files project)
           (stub_run "yolo26s_web_model" two_files "yolo26s" public_model project).1).
  - reflexivity.
  - reflexivity.
  - vm_compute. reflexivity.
  - done.
  - split; intros [k Hk]; vm_compute in Hk; discriminate Hk.
  - right. eexists. vm_compute. reflexivity.
  - apply surjective_pairing.
Defined.
